(** * PDF text and metadata extraction: a shallow embedding of
      [src/backend/utils/pdf_utils.py]

    The four functions of the module ([extract_text_from_pdf],
    [extract_text_from_multiple_pdfs], [get_pdf_metadata] and
    [extract_pdfs_with_metadata]) are translated statement by statement.

    - Exceptions are explicit: a computation that may raise has type
      [Result A], [try ... except] is [try_except].
    - The file system and the pypdf parser are a [World]: what
      [Path(p).stat().st_size] and [pypdf.PdfReader(p)] answer for every
      path.  A world is a function, so asking twice gives the same answer
      (nothing else touches the files during a call).
    - A Python [dict] is an insertion-ordered association list with
      distinct keys: assigning to a key that is present replaces the value
      in place, assigning to a new key appends.
    - The [logger] calls only write to the log file and are left out. *)

From Stdlib Require Import ZArith Lia Ascii.
From stdpp Require Import base option list strings gmap.

Local Open Scope Z_scope.

(** ** Exceptions and the error monad *)

(** The exception classes the module names, and any other subclass of
    [Exception]. *)
Inductive exn_class : Set :=
| FileNotFoundError
| PdfReadError
| TypeError
| OtherException.

(** An exception object: its class and what [str(e)] returns. *)
Record exn : Set := Exn { exn_cls : exn_class; exn_str : string }.

Inductive Result (A : Type) : Type :=
| Return (a : A)
| Raise (e : exn).
Arguments Return {A} a.
Arguments Raise {A} e.

#[global] Instance Result_ret : MRet Result := @Return.
#[global] Instance Result_bind : MBind Result := λ A B f m,
  match m with
  | Return a => f a
  | Raise e => Raise e
  end.
#[global] Instance Result_fmap : FMap Result := λ A B f m,
  match m with
  | Return a => Return (f a)
  | Raise e => Raise e
  end.
#[global] Instance Result_throw : MThrow exn Result := @Raise.

(** [try: body except Exception as e: handler e]. *)
Definition try_except {A} (body : Result A) (handler : exn → Result A) : Result A :=
  match body with
  | Return a => Return a
  | Raise e => handler e
  end.

Definition raises {A} (m : Result A) : Prop := ∃ e, m = Raise e.
Definition returns {A} (m : Result A) : Prop := ∃ a, m = Return a.

(** ** [pathlib]: [Path(p).name] on a POSIX path *)

(** The path cut at every ["/"]. *)
Fixpoint split_slash (s : string) : list string :=
  match s with
  | EmptyString => [EmptyString]
  | String c s' =>
      if Ascii.eqb c "/"%char then EmptyString :: split_slash s'
      else match split_slash s' with
           | [] => [String c EmptyString]
           | x :: xs => String c x :: xs
           end
  end.

(** The parts of the path that [pathlib] keeps: empty components and
    ["."] are dropped. *)
Definition path_parts (s : string) : list string :=
  filter (λ x, x ≠ EmptyString ∧ x ≠ ".") (split_slash s).

(** [Path(p).name]: the last part, the empty string when there is none. *)
Definition Path_name (p : string) : string :=
  default EmptyString (last (path_parts p)).

(** ** Python's insertion-ordered [dict] with string keys *)

Definition dict (V : Type) : Type := list (string * V).

(** [d[k] = v] *)
Fixpoint dict_set {V} (d : dict V) (k : string) (v : V) : dict V :=
  match d with
  | [] => [(k, v)]
  | (k', v') :: d' =>
      if decide (k' = k) then (k', v) :: d'
      else (k', v') :: dict_set d' k v
  end.

Fixpoint dict_lookup {V} (d : dict V) (k : string) : option V :=
  match d with
  | [] => None
  | (k', v') :: d' => if decide (k' = k) then Some v' else dict_lookup d' k
  end.

(** [d.get(k, dflt)] *)
Definition dict_get {V} (d : dict V) (k : string) (dflt : V) : V :=
  default dflt (dict_lookup d k).

(** [list(d)]: the keys in iteration order. *)
Definition dict_keys {V} (d : dict V) : list string := d.*1.

(** ** The world: file system and parser *)

(** A page: what [page.extract_text()] does, a string, [None] or an
    exception. *)
Record Page : Set := { extract_text : Result (option string) }.

(** [reader.metadata] when it is there: [title] and [author] are
    [Optional[str]]. *)
Record DocumentInformation : Set :=
  { info_title : option string; info_author : option string }.

(** An opened [pypdf.PdfReader]: [reader.pages] and [reader.metadata]
    (which is [None], or falsy, for a document without an information
    dictionary). *)
Record PdfReader : Set :=
  { pages : Result (list Page);
    metadata : Result (option DocumentInformation) }.

Record World : Type :=
  { (** [Path(p).stat().st_size], in bytes *)
    stat_st_size : string → Result N;
    (** [pypdf.PdfReader(p)] *)
    pypdf_PdfReader : string → Result PdfReader }.

(** ** [extract_text_from_pdf] *)

(** The string ["\n"]. *)
Definition newline : string := String (ascii_of_nat 10) EmptyString.

(** [x or EMPTY] for [x : Optional[str]], EMPTY the empty string. *)
Definition or_empty (x : option string) : string :=
  match x with
  | Some s => if decide (s = EmptyString) then EmptyString else s
  | None => EmptyString
  end.

(** The [for page_num, page in enumerate(reader.pages)] loop, [text] being
    the accumulator. *)
Fixpoint page_loop (ps : list Page) (text : string) : Result string :=
  match ps with
  | [] => mret text
  | page :: rest =>
      x ← extract_text page;
      let page_text := or_empty x in
      page_loop rest (text +:+ (page_text +:+ newline))
  end.

Definition extract_text_from_pdf (w : World) (pdf_path : string) : Result string :=
  try_except
    (reader ← pypdf_PdfReader w pdf_path;
     let text := EmptyString in
     ps ← pages reader;
     page_loop ps text)
    (λ e,
      match exn_cls e with
      | FileNotFoundError => Raise e
      | PdfReadError => Raise e
      | _ => Raise e
      end).

(** ** [extract_text_from_multiple_pdfs] *)

(** [failed_files]: the (filename, message) pairs of the failures, in
    order. *)
Definition ledger : Type := list (string * string).

(** The [for pdf_path in pdf_paths] loop on the locals [results] and
    [failed_files]. *)
Fixpoint text_loop (w : World) (pdf_paths : list string)
    (results : dict string) (failed_files : ledger) : Result (dict string * ledger) :=
  match pdf_paths with
  | [] => mret (results, failed_files)
  | pdf_path :: rest =>
      let filename := Path_name pdf_path in
      '(results, failed_files) ←
        try_except
          (text ← extract_text_from_pdf w pdf_path;
           mret (dict_set results filename text, failed_files))
          (λ e, mret (results, failed_files ++ [(filename, exn_str e)]));
      text_loop w rest results failed_files
  end.

(** The locals [(results, failed_files)] when the loop is over. *)
Definition extract_text_from_multiple_pdfs_locals (w : World) (pdf_paths : list string)
    : Result (dict string * ledger) :=
  let results := [] in
  let failed_files := [] in
  text_loop w pdf_paths results failed_files.

Definition extract_text_from_multiple_pdfs (w : World) (pdf_paths : list string)
    : Result (dict string) :=
  '(results, failed_files) ← extract_text_from_multiple_pdfs_locals w pdf_paths;
  mret results.

(** ** [get_pdf_metadata] *)

(** [round(num / den, 2)] in hundredths, for [0 <= num] and [0 < den]: the
    quotient is rounded to the nearest hundredth, a tie to the even one.
    (For a size below 2^53 bytes the float [st_size / (1024 * 1024)] is the
    exact quotient, and [round] rounds the exact value.) *)
Definition round2 (num den : Z) : Z :=
  let q := (100 * num) / den in
  let r := (100 * num) mod den in
  if 2 * r <? den then q
  else if den <? 2 * r then q + 1
  else if Z.even q then q else q + 1.

(** The dictionary [get_pdf_metadata] returns: the five keys of the
    success path, or [filename] and [error].  [file_size_mb] is in
    hundredths of a megabyte; [title] and [author] are a string or
    [None]. *)
Inductive DocumentMetadata : Set :=
| Ok (filename : string) (pages : nat) (file_size_mb : Z)
     (title author : option string)
| Degraded (filename : string) (error : string).

(** [reader.metadata] is read for [title] and again for [author]; the
    conditional expression tests the object, not the field. *)
Definition get_pdf_metadata (w : World) (pdf_path : string) : Result DocumentMetadata :=
  try_except
    (let file_path := pdf_path in
     st_size ← stat_st_size w file_path;
     let file_size_mb := (Z.of_N st_size, 1024 * 1024) in
     reader ← pypdf_PdfReader w pdf_path;
     ps ← pages reader;
     md_title ← metadata reader;
     md_author ← metadata reader;
     mret (Ok (Path_name file_path)
              (length ps)
              (round2 file_size_mb.1 file_size_mb.2)
              (match md_title with Some md => info_title md | None => Some "Unknown" end)
              (match md_author with Some md => info_author md | None => Some "Unknown" end)))
    (λ e, mret (Degraded (Path_name pdf_path) (exn_str e))).

(** ** [extract_pdfs_with_metadata] *)

(** The values a caller may pass as [pdf_input]: a string, a list of
    strings, or something else (a tuple of strings, an integer, [None]). *)
Inductive PyValue : Set :=
| PyStr (s : string)
| PyList (l : list string)
| PyTuple (l : list string)
| PyInt (n : Z)
| PyNone.

(** [{'text': text, 'meta': meta}] *)
Record Entry : Set := { text : string; meta : DocumentMetadata }.

(** The second [for pdf_path in pdf_input] loop, on the local [results]. *)
Fixpoint merge_loop (w : World) (batch : dict string) (pdf_input : list string)
    (results : dict Entry) : Result (dict Entry) :=
  match pdf_input with
  | [] => mret results
  | pdf_path :: rest =>
      let filename := Path_name pdf_path in
      let text := dict_get batch filename EmptyString in
      meta ← get_pdf_metadata w pdf_path;
      merge_loop w batch rest (dict_set results filename {| text := text; meta := meta |})
  end.

Definition extract_pdfs_with_metadata (w : World) (pdf_input : PyValue)
    : Result (dict Entry) :=
  let results := [] in
  match pdf_input with
  | PyStr pdf_input =>
      let filename := Path_name pdf_input in
      text ← extract_text_from_pdf w pdf_input;
      meta ← get_pdf_metadata w pdf_input;
      mret (dict_set results filename {| text := text; meta := meta |})
  | PyList pdf_input =>
      batch ← extract_text_from_multiple_pdfs w pdf_input;
      merge_loop w batch pdf_input results
  | _ => Raise (Exn TypeError "Input must be a str PDF path or list of paths")
  end.

(** ** The vocabulary of the statements *)

(** The distinct strings of a list, each at the place of its first
    occurrence. *)
Fixpoint first_occurrences (l : list string) : list string :=
  match l with
  | [] => []
  | x :: l' => x :: filter (λ y, y ≠ x) (first_occurrences l')
  end.

(** [for x in l: d[key x] = val x] *)
Definition fill {A V} (key : A → string) (val : A → V) (d : dict V) (l : list A) : dict V :=
  foldl (λ d x, dict_set d (key x) (val x)) d l.

(** The pages one after the other, a newline after each. *)
Definition page_lines (ts : list string) : string :=
  foldr (λ t acc, t +:+ newline +:+ acc) EmptyString ts.

(** [page_texts ps ts]: every page of [ps] is read without an error, and
    [ts] are the texts, the empty string where a page has none. *)
Definition page_texts (ps : list Page) (ts : list string) : Prop :=
  Forall2 (λ page t, ∃ x, extract_text page = Return x ∧ t = or_empty x) ps ts.

(** What can go wrong inside the [try] of [get_pdf_metadata], in the order
    of the statements: the size lookup, opening the document, counting the
    pages, reading the information dictionary. *)
Inductive probe_failure (w : World) (pdf_path : string) (e : exn) : Prop :=
| stat_fails :
    stat_st_size w pdf_path = Raise e → probe_failure w pdf_path e
| open_fails st_size :
    stat_st_size w pdf_path = Return st_size →
    pypdf_PdfReader w pdf_path = Raise e → probe_failure w pdf_path e
| pages_fail st_size reader :
    stat_st_size w pdf_path = Return st_size →
    pypdf_PdfReader w pdf_path = Return reader →
    pages reader = Raise e → probe_failure w pdf_path e
| metadata_fails st_size reader ps :
    stat_st_size w pdf_path = Return st_size →
    pypdf_PdfReader w pdf_path = Return reader →
    pages reader = Return ps →
    metadata reader = Raise e → probe_failure w pdf_path e.

(** The probe succeeds: every statement of the [try] goes through. *)
Definition probe_succeeds (w : World) (pdf_path : string)
    (st_size : N) (ps : list Page) (md : option DocumentInformation) : Prop :=
  stat_st_size w pdf_path = Return st_size
  ∧ ∃ reader, pypdf_PdfReader w pdf_path = Return reader
      ∧ pages reader = Return ps ∧ metadata reader = Return md.

(** The dictionary the probe returns. *)
Definition probe (w : World) (pdf_path : string) : DocumentMetadata :=
  match get_pdf_metadata w pdf_path with
  | Return m => m
  | Raise e => Degraded (Path_name pdf_path) (exn_str e)
  end.

(** What the first loop does with one path: the assignment it makes to
    [results], and the pair it appends to [failed_files]. *)
Definition extracted (w : World) (pdf_path : string) : option (string * string) :=
  match extract_text_from_pdf w pdf_path with
  | Return text => Some (Path_name pdf_path, text)
  | Raise _ => None
  end.

Definition failure (w : World) (pdf_path : string) : option (string * string) :=
  match extract_text_from_pdf w pdf_path with
  | Return _ => None
  | Raise e => Some (Path_name pdf_path, exn_str e)
  end.

(** The text mapping of a batch. *)
Definition batch_texts (w : World) (pdf_paths : list string) : dict string :=
  fill fst snd [] (omap (extracted w) pdf_paths).

(** The entry the second loop writes for one path. *)
Definition merged (w : World) (batch : dict string) (pdf_path : string) : Entry :=
  {| text := dict_get batch (Path_name pdf_path) EmptyString;
     meta := probe w pdf_path |}.

Definition invalid_input : exn :=
  Exn TypeError "Input must be a str PDF path or list of paths".

(** The last path of the list with basename [k]. *)
Definition last_named (k : string) (pdf_input : list string) : option string :=
  last (filter (λ x, Path_name x = k) pdf_input).

(** The texts read without an error from the paths with basename [k], in
    input order. *)
Definition texts_read (w : World) (k : string) (pdf_input : list string) : list string :=
  omap (λ x, if decide (Path_name x = k)
             then match extract_text_from_pdf w x with
                  | Return t => Some t
                  | Raise _ => None
                  end
             else None) pdf_input.

(** ** Fixtures: a small file system *)

Definition page_of (s : string) : Page := {| extract_text := Return (Some s) |}.
Definition blank_page : Page := {| extract_text := Return None |}.

Definition no_such_file (p : string) : exn :=
  Exn FileNotFoundError ("[Errno 2] No such file or directory: '" +:+ p +:+ "'").

(** The world in which exactly the listed paths exist, each with its size
    and what the parser makes of it. *)
Definition world_of (files : list (string * (N * Result PdfReader))) : World :=
  {| stat_st_size p :=
       match dict_lookup files p with
       | Some f => Return f.1
       | None => Raise (no_such_file p)
       end;
     pypdf_PdfReader p :=
       match dict_lookup files p with
       | Some f => f.2
       | None => Raise (no_such_file p)
       end |}.

(** A three-page document with a title and no author. *)
Definition doc_a : PdfReader :=
  {| pages := Return [page_of "Hello"; blank_page; page_of "World"];
     metadata := Return (Some {| info_title := Some "Doc A"; info_author := None |}) |}.

(** A one-page document without an information dictionary. *)
Definition doc_c : PdfReader :=
  {| pages := Return [page_of "Other"]; metadata := Return None |}.

Definition bad_stream : exn := Exn PdfReadError "EOF marker not found".

Definition sample_world : World :=
  world_of [("docs/a.pdf", (131072%N, Return doc_a));
            ("old/a.pdf", (2048%N, Return doc_c));
            ("docs/broken.pdf", (10%N, Raise bad_stream))].

(** ** More fixtures and vocabulary *)

Definition failing_page (e : exn) : Page := {| extract_text := Raise e |}.

Definition bad_page : exn := Exn OtherException "cannot decode content stream".

(** Two pages without text: a scan. *)
Definition doc_scan : PdfReader :=
  {| pages := Return [blank_page; blank_page]; metadata := Return None |}.

(** A document whose second page cannot be read. *)
Definition doc_half : PdfReader :=
  {| pages := Return [page_of "A"; failing_page bad_page];
     metadata := Return (Some {| info_title := Some "Half"; info_author := Some "Ann" |}) |}.

(** A document without pages. *)
Definition doc_empty : PdfReader :=
  {| pages := Return []; metadata := Return None |}.

Definition scan_world : World :=
  world_of [("scans/img.pdf", (5242%N, Return doc_scan));
            ("scans/half.pdf", (5243%N, Return doc_half));
            ("in/empty.pdf", (1000%N, Return doc_empty));
            ("in/a.pdf", (131072%N, Return doc_a))].

#[global] Instance returns_dec {A} (m : Result A) : Decision (returns m).
Proof.
  destruct m as [a|e]; [left; by exists a | right; intros [a Ha]; discriminate].
Defined.

(** [meta["filename"]] *)
Definition meta_filename (m : DocumentMetadata) : string :=
  match m with
  | Ok filename _ _ _ _ => filename
  | Degraded filename _ => filename
  end.

(** The text of a path, the empty string when it cannot be read. *)
Definition text_or_empty (w : World) (pdf_path : string) : string :=
  match extract_text_from_pdf w pdf_path with
  | Return t => t
  | Raise _ => EmptyString
  end.

(** Whether a string has the character ["/"]. *)
Fixpoint has_slash (s : string) : bool :=
  match s with
  | EmptyString => false
  | String c s' => Ascii.eqb c "/"%char || has_slash s'
  end.

(** ** The log

    The functions once more, this time with their [logger] calls: what a
    call hands to the logger, in order, next to what it returns or raises.
    A message is kept as its format and the values that fill it. *)

Inductive level : Set := DEBUG | INFO | WARNING | ERROR.

#[global] Instance level_eq_dec : EqDecision level.
Proof. solve_decision. Defined.

(** [logging.DEBUG], [logging.INFO], ... *)
Definition level_no (lv : level) : Z :=
  match lv with
  | DEBUG => 10
  | INFO => 20
  | WARNING => 30
  | ERROR => 40
  end.

Inductive message : Type :=
(** "Extracting text from: {pdf_path}" *)
| Extracting_text_from (pdf_path : string)
(** "Page {page_num} extracted: {len(page_text)} chars" *)
| Page_extracted (page_num : nat) (chars : nat)
(** "Successfully extracted {len(text)} characters from {pdf_path}" *)
| Successfully_extracted (chars : nat) (pdf_path : string)
(** "PDF file not found: {pdf_path}" *)
| PDF_file_not_found (pdf_path : string)
(** "Corrupted PDF or read error: {pdf_path}, {str(e)}" *)
| Corrupted_PDF (pdf_path : string) (err : string)
(** "Unexpected error extracting PDF {pdf_path}: {str(e)}" *)
| Unexpected_error (pdf_path : string) (err : string)
(** "Starting batch extraction for {len(pdf_paths)} PDFs" *)
| Starting_batch (n : nat)
(** "✓ Successfully processed: {filename}" *)
| Successfully_processed (filename : string)
(** "✗ Failed to process {filename}: {str(e)}" *)
| Failed_to_process (filename : string) (err : string)
(** "Batch extraction complete: {len(results)}/{len(pdf_paths)} successful" *)
| Batch_complete (n_results : nat) (n_paths : nat)
(** "Failed files: {failed_files}" *)
| Failed_files (failed_files : ledger)
(** "Getting metadata for: {pdf_path}" *)
| Getting_metadata (pdf_path : string)
(** "Metadata: {metadata}" *)
| Metadata (metadata : DocumentMetadata)
(** "Failed to get metadata for {pdf_path}: {str(e)}" *)
| Failed_to_get_metadata (pdf_path : string) (err : string).

Record event : Type := Event { ev_level : level; ev_msg : message }.

(** A computation that logs: the events so far, and how it ended. *)
Record Logged (A : Type) : Type := Log { events : list event; outcome : Result A }.
Arguments Log {A} events outcome.
Arguments events {A} _.
Arguments outcome {A} _.

#[global] Instance Logged_ret : MRet Logged := λ A a, Log [] (Return a).
#[global] Instance Logged_bind : MBind Logged := λ A B f m,
  match outcome m with
  | Return a => Log (events m ++ events (f a)) (outcome (f a))
  | Raise e => Log (events m) (Raise e)
  end.

(** [logger.debug(...)], [logger.info(...)], ... *)
Definition log (lv : level) (m : message) : Logged unit :=
  Log [Event lv m] (Return tt).

(** A step that does not log. *)
Definition quiet {A} (r : Result A) : Logged A := Log [] r.

Definition try_except_log {A} (body : Logged A) (handler : exn → Logged A) : Logged A :=
  match outcome body with
  | Return a => body
  | Raise e => Log (events body ++ events (handler e)) (outcome (handler e))
  end.

Fixpoint page_loop_log (ps : list Page) (page_num : nat) (text : string) : Logged string :=
  match ps with
  | [] => mret text
  | page :: rest =>
      x ← quiet (extract_text page);
      let page_text := or_empty x in
      let text := text +:+ (page_text +:+ newline) in
      _ ← log DEBUG (Page_extracted page_num (String.length page_text));
      page_loop_log rest (S page_num) text
  end.

Definition extract_text_from_pdf_log (w : World) (pdf_path : string) : Logged string :=
  _ ← log INFO (Extracting_text_from pdf_path);
  try_except_log
    (reader ← quiet (pypdf_PdfReader w pdf_path);
     let text := EmptyString in
     ps ← quiet (pages reader);
     text ← page_loop_log ps 0 text;
     _ ← log INFO (Successfully_extracted (String.length text) pdf_path);
     mret text)
    (λ e,
      match exn_cls e with
      | FileNotFoundError =>
          _ ← log ERROR (PDF_file_not_found pdf_path); quiet (Raise e)
      | PdfReadError =>
          _ ← log ERROR (Corrupted_PDF pdf_path (exn_str e)); quiet (Raise e)
      | _ =>
          _ ← log ERROR (Unexpected_error pdf_path (exn_str e)); quiet (Raise e)
      end).

Fixpoint text_loop_log (w : World) (pdf_paths : list string)
    (results : dict string) (failed_files : ledger) : Logged (dict string * ledger) :=
  match pdf_paths with
  | [] => mret (results, failed_files)
  | pdf_path :: rest =>
      let filename := Path_name pdf_path in
      '(results, failed_files) ←
        try_except_log
          (text ← extract_text_from_pdf_log w pdf_path;
           let results := dict_set results filename text in
           _ ← log INFO (Successfully_processed filename);
           mret (results, failed_files))
          (λ e,
            _ ← log ERROR (Failed_to_process filename (exn_str e));
            mret (results, failed_files ++ [(filename, exn_str e)]));
      text_loop_log w rest results failed_files
  end.

Definition extract_text_from_multiple_pdfs_log (w : World) (pdf_paths : list string)
    : Logged (dict string) :=
  _ ← log INFO (Starting_batch (length pdf_paths));
  let results := [] in
  let failed_files := [] in
  '(results, failed_files) ← text_loop_log w pdf_paths results failed_files;
  _ ← log INFO (Batch_complete (length results) (length pdf_paths));
  _ ← match failed_files with
      | [] => mret tt
      | _ :: _ => log WARNING (Failed_files failed_files)
      end;
  mret results.

Definition get_pdf_metadata_log (w : World) (pdf_path : string) : Logged DocumentMetadata :=
  _ ← log DEBUG (Getting_metadata pdf_path);
  try_except_log
    (let file_path := pdf_path in
     st_size ← quiet (stat_st_size w file_path);
     let file_size_mb := (Z.of_N st_size, 1024 * 1024) in
     reader ← quiet (pypdf_PdfReader w pdf_path);
     ps ← quiet (pages reader);
     md_title ← quiet (metadata reader);
     md_author ← quiet (metadata reader);
     let metadata :=
       Ok (Path_name file_path)
          (length ps)
          (round2 file_size_mb.1 file_size_mb.2)
          (match md_title with Some md => info_title md | None => Some "Unknown" end)
          (match md_author with Some md => info_author md | None => Some "Unknown" end) in
     _ ← log DEBUG (Metadata metadata);
     mret metadata)
    (λ e,
      _ ← log ERROR (Failed_to_get_metadata pdf_path (exn_str e));
      mret (Degraded (Path_name pdf_path) (exn_str e))).

Fixpoint merge_loop_log (w : World) (batch : dict string) (pdf_input : list string)
    (results : dict Entry) : Logged (dict Entry) :=
  match pdf_input with
  | [] => mret results
  | pdf_path :: rest =>
      let filename := Path_name pdf_path in
      let text := dict_get batch filename EmptyString in
      meta ← get_pdf_metadata_log w pdf_path;
      merge_loop_log w batch rest
        (dict_set results filename {| text := text; meta := meta |})
  end.

Definition extract_pdfs_with_metadata_log (w : World) (pdf_input : PyValue)
    : Logged (dict Entry) :=
  let results := [] in
  match pdf_input with
  | PyStr pdf_input =>
      let filename := Path_name pdf_input in
      text ← extract_text_from_pdf_log w pdf_input;
      meta ← get_pdf_metadata_log w pdf_input;
      mret (dict_set results filename {| text := text; meta := meta |})
  | PyList pdf_input =>
      batch ← extract_text_from_multiple_pdfs_log w pdf_input;
      merge_loop_log w batch pdf_input results
  | _ => quiet (Raise (Exn TypeError "Input must be a str PDF path or list of paths"))
  end.

(** The events a logger set to level [lv] does not drop. *)
Definition written (lv : level) (evs : list event) : list event :=
  filter (λ ev, level_no lv ≤ level_no (ev_level ev)) evs.

(** How many events of a level there are. *)
Definition count_level (lv : level) (evs : list event) : nat :=
  length (filter (λ ev, ev_level ev = lv) evs).

(** The error event of the reader for an exception: one per [except]
    clause. *)
Definition reader_error (pdf_path : string) (e : exn) : message :=
  match exn_cls e with
  | FileNotFoundError => PDF_file_not_found pdf_path
  | PdfReadError => Corrupted_PDF pdf_path (exn_str e)
  | _ => Unexpected_error pdf_path (exn_str e)
  end.

(** The page events of the texts [ts], numbered from [page_num]. *)
Fixpoint page_events (page_num : nat) (ts : list string) : list event :=
  match ts with
  | [] => []
  | t :: ts' =>
      Event DEBUG (Page_extracted page_num (String.length t))
        :: page_events (S page_num) ts'
  end.

(** What the text loop logs for one path: the events of the reader, then
    its own line. *)
Definition path_events (w : World) (pdf_path : string) : list event :=
  events (extract_text_from_pdf_log w pdf_path)
  ++ [match extract_text_from_pdf w pdf_path with
      | Return _ => Event INFO (Successfully_processed (Path_name pdf_path))
      | Raise e => Event ERROR (Failed_to_process (Path_name pdf_path) (exn_str e))
      end].

(** Whether a record is the degraded one. *)
Definition is_degraded (m : DocumentMetadata) : bool :=
  match m with
  | Ok _ _ _ _ _ => false
  | Degraded _ _ => true
  end.

(** What the probe logs after its first line. *)
Definition probe_event (pdf_path : string) (m : DocumentMetadata) : event :=
  match m with
  | Ok _ _ _ _ _ => Event DEBUG (Metadata m)
  | Degraded _ err => Event ERROR (Failed_to_get_metadata pdf_path err)
  end.

(** ** [logging_config.py] *)

Definition LOG_DIR : string := "logs".
Definition LOG_FILE : string := "rag_backend.log".

Definition starts_with_slash (s : string) : bool :=
  match s with
  | String c _ => Ascii.eqb c "/"%char
  | EmptyString => false
  end.

Fixpoint ends_with_slash (s : string) : bool :=
  match s with
  | EmptyString => false
  | String c EmptyString => Ascii.eqb c "/"%char
  | String _ s' => ends_with_slash s'
  end.

(** [os.path.join(a, b)] on POSIX. *)
Definition os_path_join (a b : string) : string :=
  if starts_with_slash b then b
  else if decide (a = EmptyString) then b
  else if ends_with_slash a then a +:+ b
  else a +:+ "/" +:+ b.

(** A handler of the [logging] module: the rotating file handler with its
    file, [maxBytes], [backupCount] and the format set on it, or a handler
    of another kind. *)
Inductive Handler : Set :=
| RotatingFileHandler (filename : string) (maxBytes backupCount : Z)
                      (formatter : option string)
| OtherHandler (name : string).

(** [handler.setFormatter(formatter)] *)
Definition setFormatter (h : Handler) (fmt : string) : Handler :=
  match h with
  | RotatingFileHandler f m b _ => RotatingFileHandler f m b (Some fmt)
  | OtherHandler n => OtherHandler n
  end.

(** A logger: its level ([None] is NOTSET), its handlers and whether it
    hands its records on to its parent. *)
Record Logger : Set :=
  { lg_level : option level; lg_handlers : list Handler; lg_propagate : bool }.

(** The part of the state of the [logging] module that [setup_logger]
    reads or writes: the handlers of the root logger, and the logger named
    "rag_backend", whose parent is the root logger. *)
Record Logging : Set := { root_handlers : list Handler; rag_backend : Logger }.

(** [logging.getLogger("rag_backend")] before anything configured it. *)
Definition new_logger : Logger :=
  {| lg_level := None; lg_handlers := []; lg_propagate := true |}.

Definition is_nil {A} (l : list A) : bool :=
  match l with
  | [] => true
  | _ :: _ => false
  end.

(** [logger.hasHandlers()]: a handler on the logger itself or, if it
    propagates, on its parent. *)
Definition hasHandlers (st : Logging) : bool :=
  negb (is_nil (lg_handlers (rag_backend st)))
  || (lg_propagate (rag_backend st) && negb (is_nil (root_handlers st))).

Definition log_format : string :=
  "[%(asctime)s] %(levelname)s - %(module)s.%(funcName)s: %(message)s".

(** [setup_logger()]: the state of the module after the call; the logger
    it returns is [rag_backend] of that state. *)
Definition setup_logger (st : Logging) : Logging :=
  let log_path := os_path_join LOG_DIR LOG_FILE in
  let logger := rag_backend st in
  let logger := {| lg_level := Some INFO;
                   lg_handlers := lg_handlers logger;
                   lg_propagate := lg_propagate logger |} in
  let handler := RotatingFileHandler log_path 10000000 5 None in
  let formatter := log_format in
  let handler := setFormatter handler formatter in
  let st := {| root_handlers := root_handlers st; rag_backend := logger |} in
  if negb (hasHandlers st)
  then {| root_handlers := root_handlers st;
          rag_backend := {| lg_level := lg_level logger;
                            lg_handlers := lg_handlers logger ++ [handler];
                            lg_propagate := lg_propagate logger |} |}
  else st.

(** The handler that [setup_logger] makes. *)
Definition file_handler : Handler :=
  RotatingFileHandler "logs/rag_backend.log" 10000000 5 (Some log_format).

(** A process in which nothing configured logging yet. *)
Definition fresh_logging : Logging :=
  {| root_handlers := []; rag_backend := new_logger |}.

(** * Proofs *)

(** ** The model on examples *)

Example Path_name_nested : Path_name "/srv/in/./report.pdf" = "report.pdf".
Proof. reflexivity. Qed.

Example Path_name_plain : Path_name "a.pdf" = "a.pdf".
Proof. reflexivity. Qed.

Example Path_name_trailing_slash : Path_name "docs/2024/" = "2024".
Proof. reflexivity. Qed.

Example Path_name_root : Path_name "/" = EmptyString.
Proof. reflexivity. Qed.

Example round2_tie_down : round2 131072 (1024 * 1024) = 12.
Proof. reflexivity. Qed.

Example round2_tie_up : round2 393216 (1024 * 1024) = 38.
Proof. reflexivity. Qed.

Example round2_megabyte_and_a_half : round2 1572864 (1024 * 1024) = 150.
Proof. reflexivity. Qed.

Example dict_set_keeps_position :
  dict_set [("a", 1%nat); ("b", 2%nat)] "a" 3%nat = [("a", 3%nat); ("b", 2%nat)]
  ∧ dict_set [("a", 1%nat); ("b", 2%nat)] "c" 3%nat
    = [("a", 1%nat); ("b", 2%nat); ("c", 3%nat)].
Proof. split; reflexivity. Qed.

Example batch_of_three :
  extract_pdfs_with_metadata sample_world
    (PyList ["docs/a.pdf"; "gone/b.pdf"; "docs/broken.pdf"])
  = Return
      [("a.pdf", {| text := "Hello" +:+ newline +:+ newline +:+ "World" +:+ newline;
                    meta := Ok "a.pdf" 3 12 (Some "Doc A") None |});
       ("b.pdf", {| text := EmptyString;
                    meta := Degraded "b.pdf" (exn_str (no_such_file "gone/b.pdf")) |});
       ("broken.pdf", {| text := EmptyString;
                         meta := Degraded "broken.pdf" "EOF marker not found" |})]
  ∧ extract_text_from_multiple_pdfs_locals sample_world
      ["docs/a.pdf"; "gone/b.pdf"; "docs/broken.pdf"]
    = Return
        ([("a.pdf", "Hello" +:+ newline +:+ newline +:+ "World" +:+ newline)],
         [("b.pdf", exn_str (no_such_file "gone/b.pdf"));
          ("broken.pdf", "EOF marker not found")]).
Proof. split; reflexivity. Qed.

(** ** The error monad *)

Lemma bind_Return {A B} (f : A → Result B) (a : A) : (Return a ≫= f) = f a.
Proof. reflexivity. Qed.

Lemma bind_Raise {A B} (f : A → Result B) (e : exn) : (Raise e ≫= f) = Raise e.
Proof. reflexivity. Qed.

Lemma try_except_returns {A} (body : Result A) (handler : exn → Result A) :
  (∀ e, returns (handler e)) → returns (try_except body handler).
Proof.
  intros Hh. destruct body as [a|e]; simpl; [by exists a | apply Hh].
Qed.

Lemma Return_not_Raise {A} (a : A) (e : exn) : Return a ≠ Raise e.
Proof. discriminate. Qed.

Lemma returns_not_raises {A} (m : Result A) : returns m → ¬ raises m.
Proof. intros [a ->] [e He]. discriminate. Qed.

(** ** The ordered dictionary *)

Section dict.
Context {V : Type}.
Implicit Types (d : dict V) (k : string) (v : V).

Lemma dict_lookup_set d k v : dict_lookup (dict_set d k v) k = Some v.
Proof.
  induction d as [|[k' v'] d IH]; simpl.
  - by rewrite decide_True.
  - destruct (decide (k' = k)) as [->|Hne]; simpl.
    + by rewrite decide_True.
    + by rewrite decide_False.
Qed.

Lemma dict_lookup_set_ne d k k' v :
  k ≠ k' → dict_lookup (dict_set d k v) k' = dict_lookup d k'.
Proof.
  intros Hne. induction d as [|[k0 v0] d IH]; simpl.
  - by rewrite decide_False.
  - destruct (decide (k0 = k)) as [->|Hne0]; simpl.
    + by rewrite !decide_False.
    + by rewrite IH.
Qed.

Lemma dict_keys_cons d k v : dict_keys ((k, v) :: d) = k :: dict_keys d.
Proof. reflexivity. Qed.

Lemma dict_lookup_None d k : dict_lookup d k = None ↔ k ∉ dict_keys d.
Proof.
  induction d as [|[k' v'] d IH]; cbn [dict_lookup].
  - split; [intros _; apply not_elem_of_nil | done].
  - rewrite dict_keys_cons, not_elem_of_cons. destruct (decide (k' = k)) as [->|Hne].
    + split; [done | by intros [? _]].
    + rewrite IH. split; [by intros ?; split | by intros [_ ?]].
Qed.

Lemma dict_lookup_is_Some d k : is_Some (dict_lookup d k) ↔ k ∈ dict_keys d.
Proof.
  rewrite <-not_eq_None_Some, dict_lookup_None.
  split; [apply dec_stable | auto].
Qed.

Lemma dict_keys_set d k v :
  dict_keys (dict_set d k v) =
    if decide (k ∈ dict_keys d) then dict_keys d else dict_keys d ++ [k].
Proof.
  induction d as [|[k' v'] d IH]; [done |].
  cbn [dict_set]. destruct (decide (k' = k)) as [->|Hne]; rewrite !dict_keys_cons.
  - rewrite decide_True; [done | left].
  - rewrite IH. destruct (decide (k ∈ dict_keys d)) as [Hin|Hnin].
    + rewrite decide_True; [done | by right].
    + rewrite decide_False; [done |].
      rewrite not_elem_of_cons. split; [congruence | done].
Qed.

Lemma dict_keys_length d : length (dict_keys d) = length d.
Proof. apply length_fmap. Qed.

Lemma dict_get_set d k v dflt : dict_get (dict_set d k v) k dflt = v.
Proof. unfold dict_get. by rewrite dict_lookup_set. Qed.
End dict.

(** ** Distinct strings in order of first occurrence *)

Lemma first_occurrences_snoc l x :
  first_occurrences (l ++ [x]) =
    if decide (x ∈ l) then first_occurrences l else first_occurrences l ++ [x].
Proof.
  induction l as [|a l IH]; [done |].
  cbn [app first_occurrences]. rewrite IH.
  destruct (decide (x ∈ l)) as [Hin|Hnin].
  - rewrite decide_True; [done | by right].
  - rewrite filter_app. destruct (decide (x = a)) as [->|Hne].
    + rewrite decide_True by left.
      rewrite filter_cons_False by (intros ?; done).
      by rewrite filter_nil, app_nil_r.
    + rewrite decide_False by (rewrite not_elem_of_cons; done).
      by rewrite filter_cons_True, filter_nil by done.
Qed.

Lemma elem_of_first_occurrences l x : x ∈ first_occurrences l ↔ x ∈ l.
Proof.
  induction l as [|a l IH]; [done |].
  cbn [first_occurrences]. rewrite !elem_of_cons, list_elem_of_filter, IH.
  destruct (decide (x = a)) as [->|Hne]; [by split; left |].
  split; [intros [?|[_ ?]]; [done | by right] | intros [?|?]; [done | by right]].
Qed.

Lemma NoDup_first_occurrences l : NoDup (first_occurrences l).
Proof.
  induction l as [|a l IH]; [constructor |].
  cbn [first_occurrences]. constructor.
  - rewrite list_elem_of_filter. by intros [? _].
  - by apply NoDup_filter.
Qed.

(** There are as many first occurrences as distinct elements. *)
Lemma length_first_occurrences l :
  length (first_occurrences l) = size (list_to_set l : gset string).
Proof.
  rewrite <-(size_list_to_set (C:=gset string) (first_occurrences l))
    by apply NoDup_first_occurrences.
  f_equal. apply set_eq. intros x.
  by rewrite !elem_of_list_to_set, elem_of_first_occurrences.
Qed.

(** ** A dictionary filled by a loop of assignments *)

Section fill.
Context {A V : Type} (key : A → string) (val : A → V).

Lemma fill_snoc d l x : fill key val d (l ++ [x]) = dict_set (fill key val d l) (key x) (val x).
Proof. unfold fill. by rewrite foldl_snoc. Qed.

(** The keys come in order of first occurrence. *)
Lemma fill_keys l : dict_keys (fill key val [] l) = first_occurrences (key <$> l).
Proof.
  induction l as [|x l IH] using rev_ind; [done |].
  rewrite fill_snoc, dict_keys_set, fmap_app, IH. cbn [fmap list_fmap].
  rewrite first_occurrences_snoc.
  destruct (decide (key x ∈ key <$> l)) as [Hin|Hnin].
  - rewrite decide_True; [done | by apply elem_of_first_occurrences].
  - rewrite decide_False; [done | by rewrite elem_of_first_occurrences].
Qed.

(** A key holds the value of the last assignment to it. *)
Lemma fill_lookup l k :
  dict_lookup (fill key val [] l) k = val <$> last (filter (λ x, key x = k) l).
Proof.
  induction l as [|x l IH] using rev_ind; [done |].
  rewrite fill_snoc, filter_app.
  destruct (decide (key x = k)) as [<-|Hne].
  - rewrite dict_lookup_set, filter_cons_True, filter_nil by done.
    by rewrite last_snoc.
  - rewrite dict_lookup_set_ne, IH by done.
    by rewrite filter_cons_False, filter_nil, app_nil_r by done.
Qed.

Lemma fill_NoDup l : NoDup (dict_keys (fill key val [] l)).
Proof. rewrite fill_keys. apply NoDup_first_occurrences. Qed.

Lemma fill_length l :
  length (fill key val [] l) = size (list_to_set (key <$> l) : gset string).
Proof.
  by rewrite <-dict_keys_length, fill_keys, length_first_occurrences.
Qed.
End fill.

(** ** Strings *)

Lemma append_assoc (s1 s2 s3 : string) : (s1 +:+ s2) +:+ s3 = s1 +:+ (s2 +:+ s3).
Proof.
  induction s1 as [|c s1 IH]; [done |].
  change (String c ((s1 +:+ s2) +:+ s3) = String c (s1 +:+ (s2 +:+ s3))).
  by rewrite IH.
Qed.

Lemma append_empty_r (s : string) : s +:+ EmptyString = s.
Proof.
  induction s as [|c s IH]; [done |].
  change (String c (s +:+ EmptyString) = String c s). by rewrite IH.
Qed.

(** ** The page loop *)

Lemma page_loop_lines ps ts acc :
  page_texts ps ts → page_loop ps acc = Return (acc +:+ page_lines ts).
Proof.
  intros H. revert acc. induction H as [|page t ps ts (x & Hx & ->) _ IH]; intros acc.
  - cbn [page_loop page_lines foldr]. by rewrite append_empty_r.
  - cbn [page_loop page_lines foldr]. rewrite Hx, bind_Return. cbn zeta.
    rewrite IH. by rewrite !append_assoc.
Qed.

(** A handler that raises what it caught changes nothing. *)
Lemma extract_text_from_pdf_body w pdf_path :
  extract_text_from_pdf w pdf_path =
    (reader ← pypdf_PdfReader w pdf_path; ps ← pages reader; page_loop ps EmptyString).
Proof.
  unfold extract_text_from_pdf.
  destruct (_ ≫= _) as [t|e]; [done |]. cbn [try_except]. by destruct (exn_cls e).
Qed.

(** C5: for a readable document whose pages yield the texts t1, ..., tn
    (the empty string for a page without text), [extract_text_from_pdf]
    returns t1, newline, t2, newline, ..., tn, newline: the pages in file
    order, a newline after each, the last included; for a document with no
    page it returns the empty string. *)
Theorem extract_text_from_pdf_page_lines w pdf_path reader ps ts :
  pypdf_PdfReader w pdf_path = Return reader →
  pages reader = Return ps →
  page_texts ps ts →
  extract_text_from_pdf w pdf_path = Return (page_lines ts)
  ∧ (ps = [] → extract_text_from_pdf w pdf_path = Return EmptyString).
Proof.
  intros Hopen Hpages Hts.
  assert (extract_text_from_pdf w pdf_path = Return (page_lines ts)) as Heq.
  { rewrite extract_text_from_pdf_body, Hopen, bind_Return, Hpages, bind_Return.
    by rewrite (page_loop_lines ps ts). }
  split; [done |]. intros ->. apply Forall2_nil_inv_l in Hts as ->. exact Heq.
Qed.

Lemma extract_text_from_pdf_page_lines_witness :
  extract_text_from_pdf sample_world "docs/a.pdf"
    = Return ("Hello" +:+ newline +:+ newline +:+ "World" +:+ newline).
Proof.
  refine (proj1 (extract_text_from_pdf_page_lines sample_world "docs/a.pdf" doc_a
    [page_of "Hello"; blank_page; page_of "World"] ["Hello"; EmptyString; "World"] _ _ _)).
  - reflexivity.
  - reflexivity.
  - repeat constructor; eexists; (split; [reflexivity | reflexivity]).
Defined.

(** ** The metadata probe *)

Lemma get_pdf_metadata_failure w pdf_path e :
  probe_failure w pdf_path e →
  get_pdf_metadata w pdf_path = Return (Degraded (Path_name pdf_path) (exn_str e)).
Proof.
  unfold get_pdf_metadata.
  intros [H1 | n H1 H2 | n r H1 H2 H3 | n r ps H1 H2 H3 H4];
    rewrite H1, ?bind_Return, ?H2, ?bind_Return, ?H3, ?bind_Return, ?H4; done.
Qed.

Lemma get_pdf_metadata_success w pdf_path st_size ps md :
  probe_succeeds w pdf_path st_size ps md →
  get_pdf_metadata w pdf_path =
    Return (Ok (Path_name pdf_path) (length ps)
               (round2 (Z.of_N st_size) (1024 * 1024))
               (match md with Some md => info_title md | None => Some "Unknown" end)
               (match md with Some md => info_author md | None => Some "Unknown" end)).
Proof.
  intros (H1 & r & H2 & H3 & H4). unfold get_pdf_metadata.
  by rewrite H1, bind_Return, H2, bind_Return, H3, bind_Return, H4.
Qed.

(** A probe fails or succeeds. *)
Lemma probe_cases w pdf_path :
  (∃ e, probe_failure w pdf_path e)
  ∨ (∃ st_size ps md, probe_succeeds w pdf_path st_size ps md).
Proof.
  destruct (stat_st_size w pdf_path) as [n|e] eqn:H1;
    [| left; exists e; by apply stat_fails].
  destruct (pypdf_PdfReader w pdf_path) as [r|e] eqn:H2;
    [| left; exists e; by eapply open_fails].
  destruct (pages r) as [ps|e] eqn:H3;
    [| left; exists e; by eapply pages_fail].
  destruct (metadata r) as [md|e] eqn:H4;
    [| left; exists e; by eapply metadata_fails].
  right. exists n, ps, md. split; [done |]. by exists r.
Qed.

Lemma get_pdf_metadata_returns w pdf_path : returns (get_pdf_metadata w pdf_path).
Proof. apply try_except_returns. intros e. by eexists. Qed.

Lemma get_pdf_metadata_probe w pdf_path :
  get_pdf_metadata w pdf_path = Return (probe w pdf_path).
Proof.
  unfold probe. by destruct (get_pdf_metadata_returns w pdf_path) as [m ->].
Qed.

(** C3: [get_pdf_metadata] raises for no identifier, be it the path of no
    file or of bytes the parser rejects: it returns a record, and when
    anything fails inside, that record is the degraded one, holding the
    basename of the identifier and the message of the error. *)
Theorem get_pdf_metadata_never_raises w pdf_path :
  returns (get_pdf_metadata w pdf_path)
  ∧ ¬ raises (get_pdf_metadata w pdf_path)
  ∧ (∀ e, probe_failure w pdf_path e →
       get_pdf_metadata w pdf_path
         = Return (Degraded (Path_name pdf_path) (exn_str e)))
  ∧ (∀ e, stat_st_size w pdf_path = Raise e →
       get_pdf_metadata w pdf_path
         = Return (Degraded (Path_name pdf_path) (exn_str e)))
  ∧ (∀ st_size e,
       stat_st_size w pdf_path = Return st_size →
       pypdf_PdfReader w pdf_path = Raise e →
       get_pdf_metadata w pdf_path
         = Return (Degraded (Path_name pdf_path) (exn_str e))).
Proof.
  split; [apply get_pdf_metadata_returns |].
  split; [apply returns_not_raises, get_pdf_metadata_returns |].
  split; [apply get_pdf_metadata_failure |].
  split.
  - intros e H. by apply get_pdf_metadata_failure, stat_fails.
  - intros n e H1 H2. by eapply get_pdf_metadata_failure, open_fails.
Qed.

Lemma get_pdf_metadata_never_raises_witness :
  get_pdf_metadata sample_world "gone/b.pdf"
    = Return (Degraded "b.pdf" "[Errno 2] No such file or directory: 'gone/b.pdf'")
  ∧ get_pdf_metadata sample_world "docs/broken.pdf"
    = Return (Degraded "broken.pdf" "EOF marker not found").
Proof.
  split.
  - apply (proj1 (proj2 (proj2 (proj2
      (get_pdf_metadata_never_raises sample_world "gone/b.pdf")))) (no_such_file "gone/b.pdf")).
    reflexivity.
  - apply (proj2 (proj2 (proj2 (proj2
      (get_pdf_metadata_never_raises sample_world "docs/broken.pdf")))) 10%N bad_stream);
      reflexivity.
Defined.

(** [round2] is the nearest hundredth: twice the distance to the exact
    quotient is at most one hundredth. *)
Lemma round2_nearest num den :
  0 < den → 2 * Z.abs (round2 num den * den - 100 * num) ≤ den.
Proof.
  intros Hden. unfold round2.
  pose proof (Z.div_mod (100 * num) den ltac:(lia)) as Hdm.
  pose proof (Z.mod_pos_bound (100 * num) den Hden) as Hr.
  set (q := 100 * num / den) in *. set (r := (100 * num) mod den) in *.
  destruct (Z.ltb_spec (2 * r) den); [nia |].
  destruct (Z.ltb_spec den (2 * r)); [nia |].
  destruct (Z.even q); nia.
Qed.

(** C6: the probe of a three-page document of 131072 bytes whose
    information dictionary has a title and no author.  The record has the
    page count, the size rounded to hundredths of a megabyte and the
    title; the author is [None], not the string "Unknown". *)
Theorem get_pdf_metadata_missing_author :
  get_pdf_metadata sample_world "docs/a.pdf"
    = Return (Ok "a.pdf" 3 12 (Some "Doc A") None)
  ∧ get_pdf_metadata sample_world "old/a.pdf"
    = Return (Ok "a.pdf" 1 0 (Some "Unknown") (Some "Unknown")).
Proof. split; reflexivity. Qed.

(** ** The two loops of the batch path *)

Lemma text_loop_fill w pdf_paths results failed_files :
  text_loop w pdf_paths results failed_files =
    Return (fill fst snd results (omap (extracted w) pdf_paths),
            failed_files ++ omap (failure w) pdf_paths).
Proof.
  revert results failed_files.
  induction pdf_paths as [|p l IH]; intros results failed_files.
  - cbn. by rewrite app_nil_r.
  - cbn [text_loop omap list_omap]. unfold extracted at 1, failure at 1.
    destruct (extract_text_from_pdf w p) as [t|e]; cbn.
    + by rewrite IH.
    + rewrite IH. by rewrite <-app_assoc.
Qed.

Lemma extract_text_from_multiple_pdfs_locals_eq w pdf_paths :
  extract_text_from_multiple_pdfs_locals w pdf_paths =
    Return (batch_texts w pdf_paths, omap (failure w) pdf_paths).
Proof. unfold extract_text_from_multiple_pdfs_locals. by rewrite text_loop_fill. Qed.

Lemma extract_text_from_multiple_pdfs_eq w pdf_paths :
  extract_text_from_multiple_pdfs w pdf_paths = Return (batch_texts w pdf_paths).
Proof.
  unfold extract_text_from_multiple_pdfs.
  by rewrite extract_text_from_multiple_pdfs_locals_eq.
Qed.

Lemma merge_loop_fill w batch pdf_input results :
  merge_loop w batch pdf_input results =
    Return (fill Path_name (merged w batch) results pdf_input).
Proof.
  revert results. induction pdf_input as [|p l IH]; intros results; [done |].
  cbn [merge_loop]. rewrite get_pdf_metadata_probe, bind_Return. cbn zeta.
  by rewrite IH.
Qed.

Lemma extract_pdfs_with_metadata_list w pdf_input :
  extract_pdfs_with_metadata w (PyList pdf_input) =
    Return (fill Path_name (merged w (batch_texts w pdf_input)) [] pdf_input).
Proof.
  cbn [extract_pdfs_with_metadata].
  by rewrite extract_text_from_multiple_pdfs_eq, bind_Return, merge_loop_fill.
Qed.

Lemma extract_pdfs_with_metadata_str w pdf_input :
  extract_pdfs_with_metadata w (PyStr pdf_input) =
    (text ← extract_text_from_pdf w pdf_input;
     Return [(Path_name pdf_input, {| text := text; meta := probe w pdf_input |})]).
Proof.
  cbn [extract_pdfs_with_metadata].
  destruct (extract_text_from_pdf w pdf_input) as [t|e]; [| done].
  by rewrite bind_Return, get_pdf_metadata_probe.
Qed.

(** The text of a basename in the batch: that of the last path with this
    basename that was read without an error. *)
Lemma batch_texts_lookup w pdf_paths k :
  dict_lookup (batch_texts w pdf_paths) k =
    snd <$> last (filter (λ kt, kt.1 = k) (omap (extracted w) pdf_paths)).
Proof. apply fill_lookup. Qed.

Lemma batch_texts_lookup_None w pdf_paths k :
  (∀ x, x ∈ pdf_paths → Path_name x = k → raises (extract_text_from_pdf w x)) →
  dict_lookup (batch_texts w pdf_paths) k = None.
Proof.
  intros Hall. rewrite batch_texts_lookup.
  destruct (last _) as [[k' t]|] eqn:Hlast; [| done].
  apply last_Some_elem_of, list_elem_of_filter in Hlast as [Hk Hin].
  apply list_elem_of_omap in Hin as (x & Hx & Hex).
  unfold extracted in Hex.
  destruct (extract_text_from_pdf w x) as [t'|e] eqn:Hext; [| done].
  injection Hex as <- <-. destruct (Hall x Hx Hk) as [e He]. congruence.
Qed.

Lemma batch_texts_lookup_last w pdf_paths p t :
  last (filter (λ x, Path_name x = Path_name p) pdf_paths) = Some p →
  extract_text_from_pdf w p = Return t →
  dict_lookup (batch_texts w pdf_paths) (Path_name p) = Some t.
Proof.
  intros Hlast Hext. rewrite batch_texts_lookup.
  apply last_Some in Hlast as [l' Hl'].
  assert (∃ l1 l2, pdf_paths = l1 ++ p :: l2
            ∧ ∀ x, x ∈ l2 → Path_name x ≠ Path_name p) as (l1 & l2 & -> & Hl2).
  { clear Hext. revert l' Hl'. induction pdf_paths as [|x l IH] using rev_ind; intros l' Hl'.
    - by destruct l'.
    - rewrite filter_app in Hl'. destruct (decide (Path_name x = Path_name p)) as [Heq|Hne].
      + rewrite filter_cons_True, filter_nil in Hl' by done.
        apply app_inj_tail in Hl' as [_ ->].
        exists l, []. split; [done |]. intros y Hy. by apply elem_of_nil in Hy.
      + rewrite filter_cons_False, filter_nil, app_nil_r in Hl' by done.
        destruct (IH l' Hl') as (l1 & l2 & -> & Hl2).
        exists l1, (l2 ++ [x]). split; [by rewrite <-app_assoc |].
        intros y [Hy | ->%list_elem_of_singleton]%elem_of_app; [by apply Hl2 | done]. }
  rewrite omap_app, filter_app. cbn [omap list_omap].
  unfold extracted at 2. rewrite Hext.
  rewrite filter_cons_True by done.
  assert (filter (λ kt : string * string, kt.1 = Path_name p) (omap (extracted w) l2) = []) as ->.
  { destruct (filter _ (omap _ l2)) as [|[k' t'] ?] eqn:Hf; [done |].
    assert ((k', t') ∈ filter (λ kt : string * string, kt.1 = Path_name p) (omap (extracted w) l2))
      as [Hk Hin]%list_elem_of_filter by (rewrite Hf; left).
    apply list_elem_of_omap in Hin as (x & Hx & Hex). unfold extracted in Hex.
    destruct (extract_text_from_pdf w x); [| done].
    injection Hex as <- <-. by destruct (Hl2 x Hx). }
  by rewrite last_snoc.
Qed.

(** ** The entry point *)

(** C4: an input that is neither a string nor a list (the integer 42, a
    tuple, [None]) makes [extract_pdfs_with_metadata] raise [TypeError] and
    return nothing; a string goes to the single-file path (read the text,
    probe, one entry) and a list to the batch path (the text loop, then the
    merge loop). *)
Theorem extract_pdfs_with_metadata_dispatch w pdf_input :
  (∀ s, pdf_input = PyStr s →
     extract_pdfs_with_metadata w pdf_input =
       (text ← extract_text_from_pdf w s;
        meta ← get_pdf_metadata w s;
        mret [(Path_name s, {| text := text; meta := meta |})]))
  ∧ (∀ l, pdf_input = PyList l →
     extract_pdfs_with_metadata w pdf_input =
       (batch ← extract_text_from_multiple_pdfs w l; merge_loop w batch l []))
  ∧ ((∀ s, pdf_input ≠ PyStr s) → (∀ l, pdf_input ≠ PyList l) →
     extract_pdfs_with_metadata w pdf_input = Raise invalid_input
     ∧ exn_cls invalid_input = TypeError
     ∧ ¬ returns (extract_pdfs_with_metadata w pdf_input)).
Proof.
  split; [by intros s -> |]. split; [by intros l -> |].
  intros Hstr Hlist.
  assert (extract_pdfs_with_metadata w pdf_input = Raise invalid_input) as Heq.
  { destruct pdf_input as [s|l|l|n|]; try done.
    - by destruct (Hstr s).
    - by destruct (Hlist l). }
  split; [done |]. split; [done |]. rewrite Heq. by intros [d Hd].
Qed.

Lemma extract_pdfs_with_metadata_dispatch_witness :
  extract_pdfs_with_metadata sample_world (PyInt 42) = Raise invalid_input
  ∧ exn_cls invalid_input = TypeError
  ∧ ¬ returns (extract_pdfs_with_metadata sample_world (PyInt 42)).
Proof.
  apply (proj2 (proj2 (extract_pdfs_with_metadata_dispatch sample_world (PyInt 42))));
    intros ?; discriminate.
Defined.

(** C10: on the empty list [extract_pdfs_with_metadata] raises nothing and
    returns the empty mapping, and [extract_text_from_multiple_pdfs]
    returns the empty mapping, its [failed_files] being empty. *)
Theorem empty_batch w :
  extract_pdfs_with_metadata w (PyList []) = Return []
  ∧ extract_text_from_multiple_pdfs w [] = Return []
  ∧ extract_text_from_multiple_pdfs_locals w [] = Return ([], []).
Proof. by repeat split. Qed.

(** C7: for a list input the result has as many entries as there are
    distinct basenames among the paths, each basename being the key of one
    entry: two paths with the same basename make one entry. *)
Theorem batch_size_distinct_basenames w pdf_input :
  ∃ d, extract_pdfs_with_metadata w (PyList pdf_input) = Return d
    ∧ length d = size (list_to_set (Path_name <$> pdf_input) : gset string)
    ∧ NoDup (dict_keys d)
    ∧ (∀ k, k ∈ dict_keys d ↔ k ∈ Path_name <$> pdf_input).
Proof.
  eexists. split; [apply extract_pdfs_with_metadata_list |].
  split; [apply fill_length |]. split; [apply fill_NoDup |].
  intros k. by rewrite fill_keys, elem_of_first_occurrences.
Qed.

(** C8: when the text of a path can be read, [extract_pdfs_with_metadata]
    on the path as a string returns one entry, from the basename to the
    text and the probe's record, and on the list of that one path it
    returns the same mapping. *)
Theorem single_matches_batch w pdf_path t :
  extract_text_from_pdf w pdf_path = Return t →
  ∃ e, extract_pdfs_with_metadata w (PyStr pdf_path) = Return [(Path_name pdf_path, e)]
    ∧ extract_pdfs_with_metadata w (PyList [pdf_path]) = Return [(Path_name pdf_path, e)]
    ∧ text e = t
    ∧ get_pdf_metadata w pdf_path = Return (meta e).
Proof.
  intros Ht. exists {| text := t; meta := probe w pdf_path |}.
  split; [by rewrite extract_pdfs_with_metadata_str, Ht |].
  split; [| split; [done | apply get_pdf_metadata_probe]].
  rewrite extract_pdfs_with_metadata_list. cbn [fill foldl dict_set].
  unfold merged, dict_get. f_equal. f_equal. f_equal. f_equal.
  rewrite (batch_texts_lookup_last w [pdf_path] pdf_path t); [done | | done].
  cbn. by rewrite decide_True.
Qed.

Lemma single_matches_batch_witness :
  ∃ e, extract_pdfs_with_metadata sample_world (PyStr "docs/a.pdf") = Return [("a.pdf", e)]
    ∧ extract_pdfs_with_metadata sample_world (PyList ["docs/a.pdf"]) = Return [("a.pdf", e)]
    ∧ text e = "Hello" +:+ newline +:+ newline +:+ "World" +:+ newline
    ∧ get_pdf_metadata sample_world "docs/a.pdf" = Return (meta e).
Proof.
  apply (single_matches_batch sample_world "docs/a.pdf"). reflexivity.
Defined.

(** ** Entries of a batch *)

Lemma last_named_elem_of k pdf_input q :
  last_named k pdf_input = Some q → Path_name q = k ∧ q ∈ pdf_input.
Proof.
  intros H. by apply last_Some_elem_of, list_elem_of_filter in H.
Qed.

Lemma last_named_is_Some k pdf_input :
  k ∈ Path_name <$> pdf_input → is_Some (last_named k pdf_input).
Proof.
  intros (x & -> & Hx)%list_elem_of_fmap. apply last_is_Some.
  intros Hnil. by apply (filter_nil_not_elem_of _ _ x) in Hnil.
Qed.

Lemma last_named_only k pdf_input p :
  p ∈ pdf_input → Path_name p = k →
  (∀ x, x ∈ pdf_input → Path_name x = k → x = p) →
  last_named k pdf_input = Some p.
Proof.
  intros Hp Hk Honly.
  destruct (last_named_is_Some k pdf_input) as [q Hq].
  { apply list_elem_of_fmap. by exists p. }
  rewrite Hq. f_equal. apply last_named_elem_of in Hq as [? ?]. by apply Honly.
Qed.

Lemma texts_read_filter w k pdf_input :
  texts_read w k pdf_input =
    snd <$> filter (λ kt, kt.1 = k) (omap (extracted w) pdf_input).
Proof.
  induction pdf_input as [|x l IH]; [done |].
  cbn [texts_read omap list_omap]. fold (texts_read w k l). rewrite IH.
  assert (extracted w x = match extract_text_from_pdf w x with
                           | Return t => Some (Path_name x, t)
                           | Raise _ => None
                           end) as -> by done.
  destruct (extract_text_from_pdf w x) as [t|e].
  - destruct (decide (Path_name x = k)) as [Heq|Hne].
    + by rewrite filter_cons_True.
    + by rewrite filter_cons_False.
  - by destruct (decide (Path_name x = k)).
Qed.

Lemma batch_texts_get w pdf_input k :
  dict_get (batch_texts w pdf_input) k EmptyString =
    default EmptyString (last (texts_read w k pdf_input)).
Proof.
  unfold dict_get. by rewrite batch_texts_lookup, texts_read_filter, fmap_last.
Qed.

Lemma batch_entry_lookup w batch pdf_input k q :
  last_named k pdf_input = Some q →
  dict_lookup (fill Path_name (merged w batch) [] pdf_input) k = Some (merged w batch q).
Proof. intros Hq. rewrite fill_lookup. unfold last_named in Hq. by rewrite Hq. Qed.

Lemma failure_recorded w (pdf_paths : list string) p e :
  p ∈ pdf_paths → extract_text_from_pdf w p = Raise e →
  (Path_name p, exn_str e) ∈ omap (failure w) pdf_paths.
Proof.
  intros Hp He. apply list_elem_of_omap. exists p. split; [done |].
  unfold failure. by rewrite He.
Qed.

Lemma text_loop_failure w p rest results failed_files e :
  extract_text_from_pdf w p = Raise e →
  text_loop w (p :: rest) results failed_files =
    text_loop w rest results (failed_files ++ [(Path_name p, exn_str e)]).
Proof. intros He. cbn [text_loop]. by rewrite He. Qed.

(** C2, as the code has it: every path of a list input has one entry in
    the result, under its basename, also when its text cannot be read.  It
    is the text mapping of [extract_text_from_multiple_pdfs] to which a
    path that cannot be read adds nothing: the loop leaves [results] as it
    is and appends the failure to [failed_files], and when no path with
    this basename can be read the text mapping has no entry for it. *)
Theorem every_identifier_has_an_entry w pdf_input p :
  p ∈ pdf_input →
  (∃ d, extract_pdfs_with_metadata w (PyList pdf_input) = Return d
     ∧ NoDup (dict_keys d)
     ∧ is_Some (dict_lookup d (Path_name p)))
  ∧ (∀ e, extract_text_from_pdf w p = Raise e →
       (∀ rest results failed_files,
          text_loop w (p :: rest) results failed_files =
            text_loop w rest results (failed_files ++ [(Path_name p, exn_str e)]))
       ∧ ∃ results failed_files,
           extract_text_from_multiple_pdfs_locals w pdf_input
             = Return (results, failed_files)
           ∧ extract_text_from_multiple_pdfs w pdf_input = Return results
           ∧ (Path_name p, exn_str e) ∈ failed_files
           ∧ ((∀ x, x ∈ pdf_input → Path_name x = Path_name p →
                 raises (extract_text_from_pdf w x)) →
              dict_lookup results (Path_name p) = None)).
Proof.
  intros Hp. split.
  - eexists. split; [apply extract_pdfs_with_metadata_list |].
    split; [apply fill_NoDup |].
    apply dict_lookup_is_Some. rewrite fill_keys, elem_of_first_occurrences.
    by apply list_elem_of_fmap_2.
  - intros e He. split; [intros; by apply text_loop_failure |].
    eexists _, _. split; [apply extract_text_from_multiple_pdfs_locals_eq |].
    split; [apply extract_text_from_multiple_pdfs_eq |].
    split; [by apply failure_recorded |].
    apply batch_texts_lookup_None.
Qed.

Lemma every_identifier_has_an_entry_witness :
  (∃ d, extract_pdfs_with_metadata sample_world (PyList ["docs/a.pdf"; "gone/b.pdf"])
          = Return d
     ∧ NoDup (dict_keys d)
     ∧ is_Some (dict_lookup d (Path_name "gone/b.pdf")))
  ∧ ∃ results failed_files,
      extract_text_from_multiple_pdfs_locals sample_world ["docs/a.pdf"; "gone/b.pdf"]
        = Return (results, failed_files)
      ∧ extract_text_from_multiple_pdfs sample_world ["docs/a.pdf"; "gone/b.pdf"]
        = Return results
      ∧ (Path_name "gone/b.pdf", exn_str (no_such_file "gone/b.pdf")) ∈ failed_files
      ∧ dict_lookup results (Path_name "gone/b.pdf") = None.
Proof.
  assert ("gone/b.pdf" ∈ ["docs/a.pdf"; "gone/b.pdf"]) as Hin
    by (right; left).
  destruct (every_identifier_has_an_entry sample_world
              ["docs/a.pdf"; "gone/b.pdf"] "gone/b.pdf" Hin) as [H1 H2].
  split; [exact H1 |].
  destruct (H2 (no_such_file "gone/b.pdf") eq_refl)
    as (_ & results & failed_files & Hl & Hr & Hf & Hnone).
  exists results, failed_files. repeat (split; [assumption |]).
  apply Hnone. intros x Hx Hname.
  apply elem_of_cons in Hx as [-> | Hx]; [discriminate Hname |].
  apply list_elem_of_singleton in Hx as ->. by eexists.
Defined.

(** C2 fails as stated: the text of gone/b.pdf cannot be read, and the
    result of the batch has an entry for it all the same. *)
Lemma failed_identifier_has_an_entry :
  raises (extract_text_from_pdf sample_world "gone/b.pdf")
  ∧ ∃ d, extract_pdfs_with_metadata sample_world (PyList ["docs/a.pdf"; "gone/b.pdf"])
           = Return d
      ∧ dict_lookup d (Path_name "gone/b.pdf")
          = Some {| text := EmptyString;
                    meta := Degraded "b.pdf" (exn_str (no_such_file "gone/b.pdf")) |}
      ∧ dict_lookup d (Path_name "gone/b.pdf") ≠ None.
Proof.
  split; [by eexists |]. eexists. split; [reflexivity |]. split; [reflexivity | done].
Qed.

(** The entry of a basename that occurs in the list: the probe of the last
    path with this basename, and the last text read from such a path. *)
Lemma batch_entry w pdf_input k :
  k ∈ Path_name <$> pdf_input →
  ∃ d e q, extract_pdfs_with_metadata w (PyList pdf_input) = Return d
    ∧ dict_keys d = first_occurrences (Path_name <$> pdf_input)
    ∧ last_named k pdf_input = Some q
    ∧ dict_lookup d k = Some e
    ∧ get_pdf_metadata w q = Return (meta e)
    ∧ text e = default EmptyString (last (texts_read w k pdf_input)).
Proof.
  intros Hk. destruct (last_named_is_Some k pdf_input Hk) as [q Hq].
  exists (fill Path_name (merged w (batch_texts w pdf_input)) [] pdf_input),
    (merged w (batch_texts w pdf_input) q), q.
  split; [apply extract_pdfs_with_metadata_list |].
  split; [apply fill_keys |]. split; [done |].
  split; [by apply batch_entry_lookup |].
  split; [apply get_pdf_metadata_probe |].
  cbn [merged text]. apply last_named_elem_of in Hq as [-> _].
  apply batch_texts_get.
Qed.

Lemma texts_read_nil w k (pdf_input : list string) :
  (∀ x, x ∈ pdf_input → Path_name x = k → raises (extract_text_from_pdf w x)) →
  texts_read w k pdf_input = [].
Proof.
  intros Hall. induction pdf_input as [|x l IH]; [done |].
  cbn [texts_read omap list_omap]. fold (texts_read w k l).
  rewrite IH by (intros y Hy; apply Hall; by right).
  destruct (decide (Path_name x = k)) as [Hk|]; [| done].
  by destruct (Hall x ltac:(left) Hk) as [e ->].
Qed.

Lemma texts_read_last w k (pdf_input : list string) q t :
  last_named k pdf_input = Some q →
  extract_text_from_pdf w q = Return t →
  last (texts_read w k pdf_input) = Some t.
Proof.
  intros Hq Ht. pose proof (last_named_elem_of _ _ _ Hq) as [<- _].
  pose proof (batch_texts_lookup_last w pdf_input q t Hq Ht) as Hl.
  by rewrite batch_texts_lookup, <-fmap_last, <-texts_read_filter in Hl.
Qed.

(** C1, as the code has it: a path of the list whose text cannot be read
    still has an entry under its basename.  The text of the entry is empty
    when no path of the list with this basename can be read, and its
    metadata is what the probe returns for the last path with this
    basename: degraded when that probe fails, complete when it succeeds.
    When no other path shares the basename that last path is the path
    itself; a missing file then has an empty text and a degraded record
    with the message of the error. *)
Theorem failed_identifier_entry w pdf_input p :
  p ∈ pdf_input →
  raises (extract_text_from_pdf w p) →
  ∃ d e q, extract_pdfs_with_metadata w (PyList pdf_input) = Return d
    ∧ dict_lookup d (Path_name p) = Some e
    ∧ last_named (Path_name p) pdf_input = Some q
    ∧ get_pdf_metadata w q = Return (meta e)
    ∧ (∀ err, probe_failure w q err →
         meta e = Degraded (Path_name p) (exn_str err))
    ∧ (∀ st_size ps md, probe_succeeds w q st_size ps md →
         ∃ title author,
           meta e = Ok (Path_name p) (length ps)
                       (round2 (Z.of_N st_size) (1024 * 1024)) title author)
    ∧ ((∀ x, x ∈ pdf_input → Path_name x = Path_name p →
          raises (extract_text_from_pdf w x)) →
       text e = EmptyString)
    ∧ ((∀ x, x ∈ pdf_input → Path_name x = Path_name p → x = p) →
       q = p ∧ text e = EmptyString
       ∧ ∀ err, stat_st_size w p = Raise err →
           meta e = Degraded (Path_name p) (exn_str err)).
Proof.
  intros Hp Hraise.
  destruct (batch_entry w pdf_input (Path_name p)) as (d & e & q & Hd & _ & Hq & He & Hm & Ht).
  { by apply list_elem_of_fmap_2. }
  pose proof (last_named_elem_of _ _ _ Hq) as [Hname _].
  assert (∀ err, probe_failure w q err →
            meta e = Degraded (Path_name p) (exn_str err)) as Hfail.
  { intros err Herr. apply get_pdf_metadata_failure in Herr.
    rewrite Hm, Hname in Herr. by injection Herr. }
  assert ((∀ x, x ∈ pdf_input → Path_name x = Path_name p →
             raises (extract_text_from_pdf w x)) → text e = EmptyString) as Hempty.
  { intros Hall. by rewrite Ht, texts_read_nil. }
  exists d, e, q. repeat (split; [assumption |]).
  split.
  { intros n ps md Hok. apply get_pdf_metadata_success in Hok.
    rewrite Hm, Hname in Hok. injection Hok as ->. by eexists _, _. }
  split; [done |].
  intros Honly.
  pose proof (last_named_only (Path_name p) pdf_input p Hp eq_refl Honly) as Hq'.
  rewrite Hq in Hq'. injection Hq' as ->.
  split; [done |]. split.
  - apply Hempty. intros x Hx Hxn. by rewrite (Honly x Hx Hxn).
  - intros err Herr. by apply Hfail, stat_fails.
Qed.

Lemma failed_identifier_entry_witness :
  ∃ d e, extract_pdfs_with_metadata sample_world (PyList ["docs/a.pdf"; "gone/b.pdf"])
           = Return d
    ∧ dict_lookup d (Path_name "gone/b.pdf") = Some e
    ∧ text e = EmptyString
    ∧ meta e = Degraded (Path_name "gone/b.pdf") (exn_str (no_such_file "gone/b.pdf")).
Proof.
  assert ("gone/b.pdf" ∈ ["docs/a.pdf"; "gone/b.pdf"]) as Hin by (right; left).
  assert (raises (extract_text_from_pdf sample_world "gone/b.pdf")) as Hraise
    by (by eexists).
  destruct (failed_identifier_entry sample_world
              ["docs/a.pdf"; "gone/b.pdf"] "gone/b.pdf" Hin Hraise)
    as (d & e & q & Hd & He & _ & _ & _ & _ & _ & Honly).
  assert (∀ x, x ∈ ["docs/a.pdf"; "gone/b.pdf"] →
            Path_name x = Path_name "gone/b.pdf" → x = "gone/b.pdf") as Hx.
  { intros x Hx Hname. apply elem_of_cons in Hx as [-> | Hx]; [discriminate Hname |].
    by apply list_elem_of_singleton in Hx. }
  destruct (Honly Hx) as (_ & Htext & Hmeta).
  exists d, e. repeat (split; [assumption |]).
  by apply Hmeta.
Defined.

(** C1 fails as stated: the text of gone/a.pdf cannot be read and its
    probe fails, yet the entry of its basename has the text and the
    complete metadata of docs/a.pdf, which comes later in the list. *)
Lemma failed_identifier_shares_basename :
  raises (extract_text_from_pdf sample_world "gone/a.pdf")
  ∧ ∃ d e, extract_pdfs_with_metadata sample_world (PyList ["gone/a.pdf"; "docs/a.pdf"])
             = Return d
      ∧ dict_lookup d (Path_name "gone/a.pdf") = Some e
      ∧ text e = "Hello" +:+ newline +:+ newline +:+ "World" +:+ newline
      ∧ text e ≠ EmptyString
      ∧ meta e = Ok "a.pdf" 3 12 (Some "Doc A") None
      ∧ get_pdf_metadata sample_world "gone/a.pdf" ≠ Return (meta e).
Proof.
  split; [by eexists |]. eexists _, _. split; [reflexivity |].
  split; [reflexivity |]. by repeat split.
Qed.

(** C9, as the code has it: the entry of a basename has the metadata of
    the last path of the list with this basename, and the text last read
    without an error from a path with this basename (the empty string when
    there is none), which is the text of the last path when that one can be
    read.  The keys of the result are the basenames in order of first
    occurrence. *)
Theorem shared_basename_entry w pdf_input k :
  k ∈ Path_name <$> pdf_input →
  ∃ d e q, extract_pdfs_with_metadata w (PyList pdf_input) = Return d
    ∧ dict_keys d = first_occurrences (Path_name <$> pdf_input)
    ∧ last_named k pdf_input = Some q
    ∧ dict_lookup d k = Some e
    ∧ get_pdf_metadata w q = Return (meta e)
    ∧ text e = default EmptyString (last (texts_read w k pdf_input))
    ∧ (∀ t, extract_text_from_pdf w q = Return t → text e = t).
Proof.
  intros Hk.
  destruct (batch_entry w pdf_input k Hk) as (d & e & q & Hd & Hkeys & Hq & He & Hm & Ht).
  exists d, e, q. repeat (split; [assumption |]).
  intros t Hext. by rewrite Ht, (texts_read_last w k pdf_input q t).
Qed.

Lemma shared_basename_entry_witness :
  ∃ d e, extract_pdfs_with_metadata sample_world
           (PyList ["old/a.pdf"; "gone/b.pdf"; "docs/a.pdf"]) = Return d
    ∧ dict_keys d = ["a.pdf"; "b.pdf"]
    ∧ dict_lookup d "a.pdf" = Some e
    ∧ get_pdf_metadata sample_world "docs/a.pdf" = Return (meta e)
    ∧ text e = "Hello" +:+ newline +:+ newline +:+ "World" +:+ newline.
Proof.
  assert ("a.pdf" ∈ Path_name <$> ["old/a.pdf"; "gone/b.pdf"; "docs/a.pdf"]) as Hin
    by left.
  destruct (shared_basename_entry sample_world
              ["old/a.pdf"; "gone/b.pdf"; "docs/a.pdf"] "a.pdf" Hin)
    as (d & e & q & Hd & Hkeys & Hq & He & Hm & _ & Ht).
  injection Hq as <-.
  exists d, e. repeat (split; [assumption |]).
  by apply Ht.
Defined.

(** C9 fails as stated: of the two paths named a.pdf the last one,
    gone/a.pdf, cannot be read, and the entry keeps the text of the first
    one next to the metadata of the last one. *)
Lemma shared_basename_keeps_earlier_text :
  last_named "a.pdf" ["docs/a.pdf"; "gone/a.pdf"] = Some "gone/a.pdf"
  ∧ raises (extract_text_from_pdf sample_world "gone/a.pdf")
  ∧ ∃ d e, extract_pdfs_with_metadata sample_world (PyList ["docs/a.pdf"; "gone/a.pdf"])
             = Return d
      ∧ dict_lookup d "a.pdf" = Some e
      ∧ extract_text_from_pdf sample_world "docs/a.pdf" = Return (text e)
      ∧ extract_text_from_pdf sample_world "gone/a.pdf" ≠ Return (text e)
      ∧ text e ≠ EmptyString
      ∧ meta e = Degraded "a.pdf" (exn_str (no_such_file "gone/a.pdf")).
Proof.
  split; [reflexivity |]. split; [by eexists |].
  eexists _, _. split; [reflexivity |]. split; [reflexivity |]. by repeat split.
Qed.

(** * Further properties *)

(** ** The reader *)

Lemma length_append (s1 s2 : string) :
  String.length (s1 +:+ s2) = (String.length s1 + String.length s2)%nat.
Proof.
  induction s1 as [|c s1 IH]; [done |].
  change (S (String.length (s1 +:+ s2)) = S (String.length s1 + String.length s2)).
  by rewrite IH.
Qed.

Lemma length_page_lines ts :
  String.length (page_lines ts) = (sum_list (String.length <$> ts) + length ts)%nat.
Proof.
  induction ts as [|t ts IH]; [done |].
  cbn [page_lines foldr]. fold (page_lines ts).
  rewrite !length_append, IH. cbn. lia.
Qed.

(** The page loop reads every page, or stops at the first one that raises. *)
Lemma page_loop_cases ps acc :
  (∃ ts, page_texts ps ts ∧ page_loop ps acc = Return (acc +:+ page_lines ts))
  ∨ (∃ ps1 page ps2 ts e,
       ps = ps1 ++ page :: ps2 ∧ page_texts ps1 ts
       ∧ extract_text page = Raise e ∧ page_loop ps acc = Raise e).
Proof.
  revert acc. induction ps as [|page ps IH]; intros acc.
  - left. exists []. split; [constructor |]. cbn. by rewrite append_empty_r.
  - destruct (extract_text page) as [x|e] eqn:Hx.
    + destruct (IH (acc +:+ (or_empty x +:+ newline)))
        as [(ts & Hts & Hl) | (ps1 & pg & ps2 & ts & e & -> & Hts & Hpg & Hl)].
      * left. exists (or_empty x :: ts). split.
        { constructor; [by exists x | done]. }
        cbn [page_loop]. rewrite Hx, bind_Return. cbn zeta. rewrite Hl.
        cbn [page_lines foldr]. by rewrite !append_assoc.
      * right. exists (page :: ps1), pg, ps2, (or_empty x :: ts), e.
        split; [done |]. split; [constructor; [by exists x | done] |].
        split; [done |]. cbn [page_loop]. by rewrite Hx, bind_Return.
    + right. exists [], page, ps, [], e. split; [done |].
      split; [constructor |]. split; [done |]. cbn [page_loop]. by rewrite Hx.
Qed.

Lemma page_texts_length ps ts : page_texts ps ts → length ps = length ts.
Proof. apply Forall2_length. Qed.

Lemma extract_text_from_pdf_lines w pdf_path reader ps ts :
  pypdf_PdfReader w pdf_path = Return reader →
  pages reader = Return ps →
  page_texts ps ts →
  extract_text_from_pdf w pdf_path = Return (page_lines ts).
Proof.
  intros Hopen Hps Hts.
  rewrite extract_text_from_pdf_body, Hopen, bind_Return, Hps, bind_Return.
  by rewrite (page_loop_lines ps ts).
Qed.

(** X1: [extract_text_from_pdf] raises exactly the error of the first step
    that fails, as it is: opening the document, listing its pages, or the
    first page whose text cannot be read (the pages before it having been
    read).  No text is returned for the pages already read. *)
Theorem extract_text_from_pdf_raises_iff w pdf_path e :
  extract_text_from_pdf w pdf_path = Raise e ↔
    pypdf_PdfReader w pdf_path = Raise e
    ∨ (∃ reader, pypdf_PdfReader w pdf_path = Return reader ∧ pages reader = Raise e)
    ∨ (∃ reader ps1 page ps2 ts,
         pypdf_PdfReader w pdf_path = Return reader
         ∧ pages reader = Return (ps1 ++ page :: ps2)
         ∧ page_texts ps1 ts
         ∧ extract_text page = Raise e).
Proof.
  rewrite extract_text_from_pdf_body.
  destruct (pypdf_PdfReader w pdf_path) as [reader|e0] eqn:Hopen.
  - rewrite bind_Return. destruct (pages reader) as [ps|e1] eqn:Hps.
    + rewrite bind_Return. split.
      * intros Hl. right. right.
        destruct (page_loop_cases ps EmptyString)
          as [(ts & _ & Hl') | (ps1 & pg & ps2 & ts & e' & -> & Hts & Hpg & Hl')];
          rewrite Hl' in Hl; [discriminate |].
        injection Hl as ->. by exists reader, ps1, pg, ps2, ts.
      * intros [? | [(r & [= <-] & ?) | (r & ps1 & pg & ps2 & ts & [= <-] & Hp & Hts & Hpg)]];
          [discriminate | congruence |].
        rewrite Hps in Hp. injection Hp as ->.
        destruct (page_loop_cases (ps1 ++ pg :: ps2) EmptyString)
          as [(ts' & Hts' & _) | (qs1 & qg & qs2 & ts' & e' & Heq & Hts' & Hqg & Hl')].
        { apply Forall2_app_inv_l in Hts' as (t1 & t2 & _ & Ht2 & _).
          apply Forall2_cons_inv_l in Ht2 as (t & t2' & (x & Hx & _) & _ & _).
          congruence. }
        rewrite Hl'. f_equal.
        (* both decompositions stop at the same page *)
        assert (length qs1 = length ps1) as Hlen.
        { destruct (Nat.lt_trichotomy (length qs1) (length ps1)) as [Hlt | [? | Hgt]];
            [| done |].
          - assert (ps1 !! length qs1 = Some qg) as Hq.
            { assert ((ps1 ++ pg :: ps2) !! length qs1 = Some qg) as H0
                by (rewrite Heq; by rewrite list_lookup_middle).
              by rewrite lookup_app_l in H0. }
            destruct (Forall2_lookup_l _ _ _ _ _ Hts Hq) as (t & _ & x & Hx & _).
            congruence.
          - assert (qs1 !! length ps1 = Some pg) as Hq.
            { assert ((qs1 ++ qg :: qs2) !! length ps1 = Some pg) as H0
                by (rewrite <-Heq; by rewrite list_lookup_middle).
              by rewrite lookup_app_l in H0. }
            destruct (Forall2_lookup_l _ _ _ _ _ Hts' Hq) as (t & _ & x & Hx & _).
            congruence. }
        assert ((ps1 ++ pg :: ps2) !! length ps1 = Some qg) as H0
          by (rewrite Heq, <-Hlen; by rewrite list_lookup_middle).
        rewrite list_lookup_middle in H0 by done. injection H0 as ->. congruence.
    + rewrite bind_Raise. split.
      * intros [= ->]. right. left. by exists reader.
      * intros [? | [(r & [= <-] & ?) | (r & ps1 & pg & ps2 & ts & [= <-] & Hp & _)]];
          congruence.
  - rewrite bind_Raise. split.
    + intros [= ->]. by left.
    + intros [? | [(r & ? & _) | (r & ps1 & pg & ps2 & ts & ? & _)]]; congruence.
Qed.

Lemma extract_text_from_pdf_raises_iff_witness :
  extract_text_from_pdf scan_world "scans/half.pdf" = Raise bad_page
  ∧ extract_text_from_pdf scan_world "gone.pdf" = Raise (no_such_file "gone.pdf").
Proof.
  split.
  - apply (proj2 (extract_text_from_pdf_raises_iff scan_world "scans/half.pdf" bad_page)).
    right. right. exists doc_half, [page_of "A"], (failing_page bad_page), [], ["A"].
    split; [reflexivity |]. split; [reflexivity |].
    split; [| reflexivity]. repeat constructor. by exists (Some "A").
  - apply (proj2 (extract_text_from_pdf_raises_iff scan_world "gone.pdf"
                    (no_such_file "gone.pdf"))).
    left. reflexivity.
Defined.

(** X2: the text of a document that is read has one character more than
    its pages together, for every page: the newline after it. *)
Theorem extract_text_from_pdf_length w pdf_path reader ps ts :
  pypdf_PdfReader w pdf_path = Return reader →
  pages reader = Return ps →
  page_texts ps ts →
  ∃ t, extract_text_from_pdf w pdf_path = Return t
    ∧ String.length t = (sum_list (String.length <$> ts) + length ps)%nat.
Proof.
  intros Hopen Hps Hts. exists (page_lines ts). split.
  - by apply (extract_text_from_pdf_lines w pdf_path reader ps ts).
  - by rewrite length_page_lines, (page_texts_length ps ts).
Qed.

Lemma extract_text_from_pdf_length_witness :
  ∃ t, extract_text_from_pdf scan_world "scans/img.pdf" = Return t
    ∧ String.length t = 2%nat.
Proof.
  apply (extract_text_from_pdf_length scan_world "scans/img.pdf" doc_scan
           [blank_page; blank_page] [EmptyString; EmptyString]);
    [reflexivity | reflexivity |].
  repeat constructor; by exists None.
Defined.

(** X3: the text of a document that is read is empty exactly when the
    document has no page; pages without text still give their newlines. *)
Theorem extract_text_from_pdf_empty_iff w pdf_path reader ps t :
  pypdf_PdfReader w pdf_path = Return reader →
  pages reader = Return ps →
  extract_text_from_pdf w pdf_path = Return t →
  t = EmptyString ↔ ps = [].
Proof.
  intros Hopen Hps Ht.
  rewrite extract_text_from_pdf_body, Hopen, bind_Return, Hps, bind_Return in Ht.
  destruct (page_loop_cases ps EmptyString)
    as [(ts & Hts & Hl) | (ps1 & pg & ps2 & ts & e & _ & _ & _ & Hl)];
    rewrite Hl in Ht; [| discriminate].
  injection Ht as <-. change (EmptyString +:+ page_lines ts) with (page_lines ts).
  pose proof (page_texts_length _ _ Hts) as Hlen.
  pose proof (length_page_lines ts) as Hsize.
  split.
  - intros Hempty. rewrite Hempty in Hsize. cbn in Hsize.
    destruct ps; [done | destruct ts; simpl in *; lia].
  - intros ->. by destruct ts.
Qed.

Lemma extract_text_from_pdf_empty_iff_witness :
  (EmptyString = EmptyString ↔ @nil Page = [])
  ∧ (newline +:+ newline = EmptyString ↔ [blank_page; blank_page] = []).
Proof.
  split.
  - apply (extract_text_from_pdf_empty_iff scan_world "in/empty.pdf" doc_empty);
      reflexivity.
  - apply (extract_text_from_pdf_empty_iff scan_world "scans/img.pdf" doc_scan);
      reflexivity.
Defined.

(** ** The text loop of a batch *)

Lemma extracted_keys w (pdf_paths : list string) :
  (omap (extracted w) pdf_paths).*1 =
    Path_name <$> filter (λ p, returns (extract_text_from_pdf w p)) pdf_paths.
Proof.
  induction pdf_paths as [|p l IH]; [done |].
  cbn [omap list_omap]. rewrite filter_cons. unfold extracted at 1.
  destruct (extract_text_from_pdf w p) as [t|e].
  - rewrite decide_True by (by eexists). cbn. by rewrite <-IH.
  - rewrite decide_False by (intros [? ?]; done). done.
Qed.

Lemma failure_keys w (pdf_paths : list string) :
  (omap (failure w) pdf_paths).*1 =
    Path_name <$> filter (λ p, ¬ returns (extract_text_from_pdf w p)) pdf_paths.
Proof.
  induction pdf_paths as [|p l IH]; [done |].
  cbn [omap list_omap]. rewrite filter_cons. unfold failure at 1.
  destruct (extract_text_from_pdf w p) as [t|e].
  - rewrite decide_False by (intros H; apply H; by eexists). done.
  - rewrite decide_True by (intros [? ?]; done). cbn. by rewrite <-IH.
Qed.

Lemma length_first_occurrences_le (l : list string) :
  (length (first_occurrences l) ≤ length l)%nat.
Proof.
  induction l as [|x l IH]; [done |]. cbn [first_occurrences length].
  pose proof (length_filter (λ y, y ≠ x) (first_occurrences l)). lia.
Qed.

Lemma first_occurrences_NoDup (l : list string) :
  NoDup l → first_occurrences l = l.
Proof.
  induction 1 as [|x l Hx _ IH]; [done |].
  cbn [first_occurrences]. rewrite IH. f_equal. clear IH.
  induction l as [|y l IHl]; [done |].
  apply not_elem_of_cons in Hx as [Hne Hx].
  rewrite filter_cons_True by (intros ->; done). f_equal. by apply IHl.
Qed.

Lemma length_filter_complement {A} (P : A → Prop) `{∀ x, Decision (P x)} (l : list A) :
  (length (filter P l) + length (filter (λ x, ¬ P x) l) = length l)%nat.
Proof.
  induction l as [|x l IH]; [done |].
  rewrite !filter_cons. destruct (decide (P x)).
  - rewrite decide_False by tauto. simpl. lia.
  - rewrite decide_True by done. simpl. lia.
Qed.

Lemma NoDup_fmap_filter {A} (f : A → string) (P : A → Prop) `{∀ x, Decision (P x)}
    (l : list A) :
  NoDup (f <$> l) → NoDup (f <$> filter P l).
Proof.
  intros Hnd. eapply sublist_NoDup; [exact Hnd |].
  apply fmap_sublist, sublist_filter.
Qed.

Lemma NoDup_fmap_eq {A} (f : A → string) (l : list A) x y :
  NoDup (f <$> l) → x ∈ l → y ∈ l → f x = f y → x = y.
Proof.
  induction l as [|a l IH]; intros Hnd Hx Hy Hf; [by apply elem_of_nil in Hx |].
  rewrite fmap_cons in Hnd. apply NoDup_cons in Hnd as [Ha Hnd].
  apply elem_of_cons in Hx as [-> | Hx]; apply elem_of_cons in Hy as [-> | Hy];
    [done | | | by apply IH].
  - destruct Ha. rewrite Hf. by apply list_elem_of_fmap_2.
  - destruct Ha. rewrite <-Hf. by apply list_elem_of_fmap_2.
Qed.


(** X5: the keys of the text mapping are the basenames of the paths that
    are read, in order of first occurrence; the mapping and the failures
    together never count more than the paths, and count exactly the paths
    when the basenames are distinct. *)
Theorem text_results_keys w (pdf_paths : list string) :
  ∃ results failed_files,
    extract_text_from_multiple_pdfs_locals w pdf_paths = Return (results, failed_files)
    ∧ dict_keys results =
        first_occurrences
          (Path_name <$> filter (λ p, returns (extract_text_from_pdf w p)) pdf_paths)
    ∧ (length results + length failed_files ≤ length pdf_paths)%nat
    ∧ (NoDup (Path_name <$> pdf_paths) →
       (length results + length failed_files = length pdf_paths)%nat).
Proof.
  eexists _, _. split; [apply extract_text_from_multiple_pdfs_locals_eq |].
  assert (dict_keys (batch_texts w pdf_paths) =
            first_occurrences
              (Path_name <$> filter (λ p, returns (extract_text_from_pdf w p)) pdf_paths))
    as Hkeys.
  { unfold batch_texts. rewrite fill_keys. by rewrite <-extracted_keys. }
  assert (length (omap (failure w) pdf_paths) =
            length (filter (λ p, ¬ returns (extract_text_from_pdf w p)) pdf_paths))
    as Hfail.
  { by rewrite <-(length_fmap fst), failure_keys, length_fmap. }
  pose proof (length_filter_complement
                (λ p, returns (extract_text_from_pdf w p)) pdf_paths) as Hsum.
  split; [done |]. rewrite <-(dict_keys_length (batch_texts w pdf_paths)), Hkeys, Hfail.
  split.
  - pose proof (length_first_occurrences_le
        (Path_name <$> filter (λ p, returns (extract_text_from_pdf w p)) pdf_paths)) as Hle.
    rewrite length_fmap in Hle. lia.
  - intros Hnd. rewrite first_occurrences_NoDup by (by apply NoDup_fmap_filter).
    rewrite length_fmap. lia.
Qed.

Lemma text_results_keys_witness :
  ∃ results failed_files,
    extract_text_from_multiple_pdfs_locals scan_world
      ["in/a.pdf"; "scans/half.pdf"; "gone/b.pdf"] = Return (results, failed_files)
    ∧ dict_keys results = ["a.pdf"]
    ∧ (length results + length failed_files = 3)%nat.
Proof.
  destruct (text_results_keys scan_world ["in/a.pdf"; "scans/half.pdf"; "gone/b.pdf"])
    as (results & failed_files & Hl & Hkeys & _ & Hdistinct).
  exists results, failed_files. split; [exact Hl |]. split; [exact Hkeys |].
  apply Hdistinct. change (NoDup ["a.pdf"; "half.pdf"; "b.pdf"]).
  repeat (apply NoDup_cons; split;
          [rewrite ?elem_of_cons, elem_of_nil; intros H;
           repeat (destruct H as [H | H]; [discriminate H |]); exact H |]).
  apply NoDup_nil_2.
Defined.

Lemma batch_texts_lookup_distinct w (pdf_paths : list string) p :
  NoDup (Path_name <$> pdf_paths) →
  p ∈ pdf_paths →
  dict_lookup (batch_texts w pdf_paths) (Path_name p) =
    match extract_text_from_pdf w p with
    | Return t => Some t
    | Raise _ => None
    end.
Proof.
  intros Hnd Hp.
  assert (∀ x, x ∈ pdf_paths → Path_name x = Path_name p → x = p) as Honly.
  { intros x Hx Hname. by apply (NoDup_fmap_eq Path_name pdf_paths). }
  destruct (extract_text_from_pdf w p) as [t|e] eqn:He.
  - apply batch_texts_lookup_last; [| done]. by apply last_named_only.
  - apply batch_texts_lookup_None. intros x Hx Hname.
    rewrite (Honly x Hx Hname). by exists e.
Qed.

(** X6: when the basenames of the paths are distinct, the text mapping has
    the text of every path that is read under its basename, and no entry
    for a path that cannot be read. *)
Theorem text_results_lookup_distinct w (pdf_paths : list string) p :
  NoDup (Path_name <$> pdf_paths) →
  p ∈ pdf_paths →
  ∃ results,
    extract_text_from_multiple_pdfs w pdf_paths = Return results
    ∧ dict_lookup results (Path_name p) =
        match extract_text_from_pdf w p with
        | Return t => Some t
        | Raise _ => None
        end.
Proof.
  intros Hnd Hp. eexists. split; [apply extract_text_from_multiple_pdfs_eq |].
  by apply batch_texts_lookup_distinct.
Qed.

Lemma text_results_lookup_distinct_witness :
  ∃ results,
    extract_text_from_multiple_pdfs scan_world ["in/a.pdf"; "scans/half.pdf"]
      = Return results
    ∧ dict_lookup results (Path_name "scans/half.pdf") = None.
Proof.
  apply (text_results_lookup_distinct scan_world ["in/a.pdf"; "scans/half.pdf"]
           "scans/half.pdf").
  - change (NoDup ["a.pdf"; "half.pdf"]).
    apply NoDup_cons. split; [| apply NoDup_singleton].
    intros H. apply list_elem_of_singleton in H. discriminate H.
  - right; left.
Defined.

(** ** The probe *)


Lemma round2_monotone num1 num2 den :
  0 < den → num1 ≤ num2 → round2 num1 den ≤ round2 num2 den.
Proof.
  intros Hden Hle.
  destruct (decide (num1 = num2)) as [->|Hne]; [done |].
  pose proof (round2_nearest num1 den Hden) as H1.
  pose proof (round2_nearest num2 den Hden) as H2.
  destruct (Z.le_gt_cases (round2 num1 den) (round2 num2 den)) as [|Hgt]; [done |].
  exfalso. nia.
Qed.


(** X7: the record of the probe always has the basename of the path as
    its filename; it is the complete record exactly when the size lookup,
    the opening, the page count and the metadata all succeed, and the
    degraded one exactly when one of them raises. *)
Theorem get_pdf_metadata_outcome w pdf_path :
  (∀ m, get_pdf_metadata w pdf_path = Return m → meta_filename m = Path_name pdf_path)
  ∧ ((∃ f n sz t a, get_pdf_metadata w pdf_path = Return (Ok f n sz t a))
     ↔ ∃ st_size ps md, probe_succeeds w pdf_path st_size ps md)
  ∧ ((∃ f err, get_pdf_metadata w pdf_path = Return (Degraded f err))
     ↔ ∃ e, probe_failure w pdf_path e).
Proof.
  destruct (probe_cases w pdf_path) as [[e He] | (n & ps & md & Hok)].
  - pose proof (get_pdf_metadata_failure _ _ _ He) as Hm. rewrite Hm.
    split; [by intros m [= <-] |]. split.
    + split; [intros (? & ? & ? & ? & ? & ?); discriminate |].
      intros (n & ps & md & Hok). apply get_pdf_metadata_success in Hok. congruence.
    + split; [by exists e | by eexists _, _].
  - pose proof (get_pdf_metadata_success _ _ _ _ _ Hok) as Hm. rewrite Hm.
    split; [by intros m [= <-] |]. split.
    + split; [by exists n, ps, md | by eexists _, _, _, _, _].
    + split; [intros (? & ? & ?); discriminate |].
      intros [e He]. apply get_pdf_metadata_failure in He. congruence.
Qed.





(** X10: a larger file never has a smaller [file_size_mb]. *)
Theorem get_pdf_metadata_file_size_monotone w p1 p2 n1 n2 ps1 ps2 md1 md2 :
  probe_succeeds w p1 n1 ps1 md1 →
  probe_succeeds w p2 n2 ps2 md2 →
  (n1 ≤ n2)%N →
  ∃ f1 k1 sz1 t1 a1 f2 k2 sz2 t2 a2,
    get_pdf_metadata w p1 = Return (Ok f1 k1 sz1 t1 a1)
    ∧ get_pdf_metadata w p2 = Return (Ok f2 k2 sz2 t2 a2)
    ∧ sz1 ≤ sz2.
Proof.
  intros Hok1 Hok2 Hle. eexists _, _, _, _, _, _, _, _, _, _.
  split; [by apply get_pdf_metadata_success |].
  split; [by apply get_pdf_metadata_success |].
  apply round2_monotone; lia.
Qed.

Lemma get_pdf_metadata_file_size_monotone_witness :
  ∃ f1 k1 sz1 t1 a1 f2 k2 sz2 t2 a2,
    get_pdf_metadata scan_world "scans/img.pdf" = Return (Ok f1 k1 sz1 t1 a1)
    ∧ get_pdf_metadata scan_world "scans/half.pdf" = Return (Ok f2 k2 sz2 t2 a2)
    ∧ sz1 ≤ sz2.
Proof.
  apply (get_pdf_metadata_file_size_monotone scan_world "scans/img.pdf" "scans/half.pdf"
           5242%N 5243%N [blank_page; blank_page] [page_of "A"; failing_page bad_page]
           None (Some {| info_title := Some "Half"; info_author := Some "Ann" |})).
  - split; [reflexivity |]. exists doc_scan. by repeat split.
  - split; [reflexivity |]. exists doc_half. by repeat split.
  - done.
Defined.

(** ** The entry point *)

Lemma probe_filename w pdf_path : meta_filename (probe w pdf_path) = Path_name pdf_path.
Proof.
  destruct (probe_cases w pdf_path) as [[e He] | (n & ps & md & Hok)]; unfold probe.
  - by rewrite (get_pdf_metadata_failure _ _ _ He).
  - by rewrite (get_pdf_metadata_success _ _ _ _ _ Hok).
Qed.

Lemma elem_of_dict_set {V} (d : dict V) k v k' v' :
  (k', v') ∈ dict_set d k v → (k', v') = (k, v) ∨ (k', v') ∈ d.
Proof.
  induction d as [|[k0 v0] d IH]; cbn [dict_set].
  - intros ->%list_elem_of_singleton. by left.
  - destruct (decide (k0 = k)) as [->|Hne].
    + intros [-> | H]%elem_of_cons; [by left | right; by right].
    + intros [-> | H]%elem_of_cons; [right; left |].
      destruct (IH H) as [? | ?]; [by left | right; by right].
Qed.

Lemma elem_of_fill {A V} (key : A → string) (val : A → V) (l : list A) k v :
  (k, v) ∈ fill key val [] l → ∃ x, x ∈ l ∧ k = key x ∧ v = val x.
Proof.
  induction l as [|x l IH] using rev_ind; [by intros ?%elem_of_nil |].
  rewrite fill_snoc. intros [[= -> ->] | H]%elem_of_dict_set.
  - exists x. split; [apply elem_of_app; right; left | done].
  - destruct (IH H) as (y & Hy & ? & ?). exists y.
    split; [apply elem_of_app; by left | done].
Qed.

Lemma dict_set_app_r {V} (d d' : dict V) k v :
  k ∉ dict_keys d → dict_set (d ++ d') k v = d ++ dict_set d' k v.
Proof.
  induction d as [|[k0 v0] d IH]; [done |].
  rewrite dict_keys_cons, not_elem_of_cons. intros [Hne Hk].
  cbn [app dict_set]. rewrite decide_False by done. by rewrite IH.
Qed.

Lemma dict_set_fresh {V} (d : dict V) k v :
  k ∉ dict_keys d → dict_set d k v = d ++ [(k, v)].
Proof.
  intros Hk. rewrite <-(app_nil_r d) at 1. by rewrite dict_set_app_r.
Qed.

Lemma fill_app {A V} (key : A → string) (val : A → V) (d : dict V) (l1 l2 : list A) :
  fill key val d (l1 ++ l2) = fill key val (fill key val d l1) l2.
Proof. unfold fill. by rewrite foldl_app. Qed.

Lemma fill_ext {A V} (key : A → string) (val val' : A → V) (d : dict V) (l : list A) :
  (∀ x, x ∈ l → val x = val' x) → fill key val d l = fill key val' d l.
Proof.
  induction l as [|x l IH] using rev_ind; [done |]. intros Hext.
  rewrite !fill_snoc, IH, Hext; [done | |].
  - apply elem_of_app. right; left.
  - intros y Hy. apply Hext, elem_of_app. by left.
Qed.

(** Assignments to keys that the dictionary does not have come after it. *)
Lemma fill_disjoint {A V} (key : A → string) (val : A → V) (d : dict V) (l : list A) :
  (∀ x, x ∈ l → key x ∉ dict_keys d) →
  fill key val d l = d ++ fill key val [] l.
Proof.
  induction l as [|x l IH] using rev_ind; intros Hdis.
  - cbn. by rewrite app_nil_r.
  - rewrite !fill_snoc, IH by (intros y Hy; apply Hdis, elem_of_app; by left).
    apply dict_set_app_r, Hdis, elem_of_app. right; left.
Qed.

Lemma fill_distinct {A V} (key : A → string) (val : A → V) (l : list A) :
  NoDup (key <$> l) → fill key val [] l = (λ x, (key x, val x)) <$> l.
Proof.
  induction l as [|x l IH] using rev_ind; [done |].
  rewrite fmap_app. intros (Hl & Hx & _)%NoDup_app.
  rewrite fill_snoc, IH by done. rewrite dict_set_fresh.
  - by rewrite fmap_app.
  - unfold dict_keys. rewrite <-list_fmap_compose.
    intros Hin. apply (Hx (key x)); [done | left].
Qed.

Lemma batch_texts_get_app_l w (l1 l2 : list string) k :
  (∀ y, y ∈ l2 → Path_name y ≠ k) →
  dict_lookup (batch_texts w (l1 ++ l2)) k = dict_lookup (batch_texts w l1) k.
Proof.
  intros Hdis. rewrite !batch_texts_lookup, omap_app, filter_app.
  assert (filter (λ kt : string * string, kt.1 = k) (omap (extracted w) l2) = []) as ->.
  { destruct (filter _ (omap _ l2)) as [|[k' t'] ?] eqn:Hf; [done |].
    assert ((k', t') ∈ filter (λ kt : string * string, kt.1 = k) (omap (extracted w) l2))
      as [Hk Hin]%list_elem_of_filter by (rewrite Hf; left).
    apply list_elem_of_omap in Hin as (x & Hx & Hex). unfold extracted in Hex.
    destruct (extract_text_from_pdf w x); [| done].
    injection Hex as <- <-. by destruct (Hdis x Hx). }
  by rewrite app_nil_r.
Qed.

Lemma batch_texts_get_app_r w (l1 l2 : list string) k :
  (∀ y, y ∈ l1 → Path_name y ≠ k) →
  dict_lookup (batch_texts w (l1 ++ l2)) k = dict_lookup (batch_texts w l2) k.
Proof.
  intros Hdis. rewrite !batch_texts_lookup, omap_app, filter_app.
  assert (filter (λ kt : string * string, kt.1 = k) (omap (extracted w) l1) = []) as ->.
  { destruct (filter _ (omap _ l1)) as [|[k' t'] ?] eqn:Hf; [done |].
    assert ((k', t') ∈ filter (λ kt : string * string, kt.1 = k) (omap (extracted w) l1))
      as [Hk Hin]%list_elem_of_filter by (rewrite Hf; left).
    apply list_elem_of_omap in Hin as (x & Hx & Hex). unfold extracted in Hex.
    destruct (extract_text_from_pdf w x); [| done].
    injection Hex as <- <-. by destruct (Hdis x Hx). }
  done.
Qed.

(** X11: on a single path [extract_pdfs_with_metadata] raises exactly when
    the text cannot be read, and then the error of the reader itself; the
    list of that one path never raises. *)
Theorem single_path_propagates w pdf_path :
  (∀ e, extract_pdfs_with_metadata w (PyStr pdf_path) = Raise e
        ↔ extract_text_from_pdf w pdf_path = Raise e)
  ∧ (returns (extract_pdfs_with_metadata w (PyStr pdf_path))
     ↔ returns (extract_text_from_pdf w pdf_path))
  ∧ returns (extract_pdfs_with_metadata w (PyList [pdf_path])).
Proof.
  rewrite extract_pdfs_with_metadata_str, extract_pdfs_with_metadata_list.
  destruct (extract_text_from_pdf w pdf_path) as [t|e0]; rewrite ?bind_Return, ?bind_Raise.
  - split; [split; discriminate |]. split; [split; intros _; by eexists | by eexists].
  - split; [intros e; split; intros [= ->]; done |].
    split; [split; intros [? ?]; discriminate | by eexists].
Qed.

(** X12: in every mapping that [extract_pdfs_with_metadata] returns, the
    filename recorded in the metadata of an entry is the key of the
    entry. *)
Theorem entry_key_is_filename w pdf_input d :
  extract_pdfs_with_metadata w pdf_input = Return d →
  ∀ k e, (k, e) ∈ d → meta_filename (meta e) = k.
Proof.
  destruct pdf_input as [p|l|l|n|]; try discriminate.
  - rewrite extract_pdfs_with_metadata_str.
    destruct (extract_text_from_pdf w p) as [t|e0]; [| discriminate].
    rewrite bind_Return. intros [= <-] k e [= -> ->]%list_elem_of_singleton.
    apply probe_filename.
  - rewrite extract_pdfs_with_metadata_list. intros [= <-] k e Hin.
    apply elem_of_fill in Hin as (x & _ & -> & ->). apply probe_filename.
Qed.

Lemma entry_key_is_filename_witness :
  meta_filename (Degraded "b.pdf" (exn_str (no_such_file "gone/b.pdf"))) = "b.pdf".
Proof.
  refine (entry_key_is_filename sample_world (PyList ["docs/a.pdf"; "gone/b.pdf"])
    [("a.pdf", {| text := "Hello" +:+ newline +:+ newline +:+ "World" +:+ newline;
                  meta := Ok "a.pdf" 3 12 (Some "Doc A") None |});
     ("b.pdf", {| text := EmptyString;
                  meta := Degraded "b.pdf" (exn_str (no_such_file "gone/b.pdf")) |})]
    eq_refl "b.pdf"
    {| text := EmptyString;
       meta := Degraded "b.pdf" (exn_str (no_such_file "gone/b.pdf")) |} _).
  right; left.
Defined.

(** X13: when the basenames of the paths are distinct, the result lists
    the paths in input order: for each its basename, its text (empty when
    it cannot be read) and the record of its probe. *)
Theorem batch_distinct_basenames w (pdf_input : list string) :
  NoDup (Path_name <$> pdf_input) →
  ∃ d, extract_pdfs_with_metadata w (PyList pdf_input) = Return d
    ∧ dict_keys d = Path_name <$> pdf_input
    ∧ length d = length pdf_input
    ∧ Forall2 (λ p ke, ke.1 = Path_name p
                       ∧ text ke.2 = text_or_empty w p
                       ∧ get_pdf_metadata w p = Return (meta ke.2)) pdf_input d.
Proof.
  intros Hnd. eexists. split; [apply extract_pdfs_with_metadata_list |].
  rewrite fill_distinct by done.
  split; [unfold dict_keys; by rewrite <-list_fmap_compose |].
  split; [by rewrite length_fmap |].
  apply Forall2_fmap_r, Forall_Forall2_diag, Forall_forall. intros p Hp. cbn.
  split; [done |]. split; [| apply get_pdf_metadata_probe].
  unfold dict_get, text_or_empty. rewrite batch_texts_lookup_distinct by done.
  by destruct (extract_text_from_pdf w p).
Qed.

Lemma batch_distinct_basenames_witness :
  ∃ d, extract_pdfs_with_metadata scan_world (PyList ["in/a.pdf"; "scans/half.pdf"])
         = Return d
    ∧ dict_keys d = ["a.pdf"; "half.pdf"]
    ∧ length d = 2%nat.
Proof.
  destruct (batch_distinct_basenames scan_world ["in/a.pdf"; "scans/half.pdf"])
    as (d & Hd & Hkeys & Hlen & _).
  - change (NoDup ["a.pdf"; "half.pdf"]).
    apply NoDup_cons. split; [| apply NoDup_singleton].
    intros H. apply list_elem_of_singleton in H. discriminate H.
  - by exists d.
Defined.

(** X14: a list made of two lists that share no basename gives the result
    of the first followed by the result of the second. *)
Theorem batch_app_disjoint w (l1 l2 : list string) :
  (∀ x y, x ∈ l1 → y ∈ l2 → Path_name x ≠ Path_name y) →
  ∃ d1 d2,
    extract_pdfs_with_metadata w (PyList l1) = Return d1
    ∧ extract_pdfs_with_metadata w (PyList l2) = Return d2
    ∧ extract_pdfs_with_metadata w (PyList (l1 ++ l2)) = Return (d1 ++ d2).
Proof.
  intros Hdis. eexists _, _.
  split; [apply extract_pdfs_with_metadata_list |].
  split; [apply extract_pdfs_with_metadata_list |].
  rewrite extract_pdfs_with_metadata_list. f_equal.
  rewrite fill_app.
  rewrite (fill_ext Path_name (merged w (batch_texts w (l1 ++ l2)))
             (merged w (batch_texts w l1)) [] l1).
  2:{ intros x Hx. unfold merged, dict_get. f_equal.
      rewrite batch_texts_get_app_l; [done |].
      intros y Hy Heq. by apply (Hdis x y). }
  rewrite (fill_ext Path_name (merged w (batch_texts w (l1 ++ l2)))
             (merged w (batch_texts w l2)) _ l2).
  2:{ intros x Hx. unfold merged, dict_get. f_equal.
      rewrite batch_texts_get_app_r; [done |].
      intros y Hy Heq. by apply (Hdis y x). }
  apply fill_disjoint. intros y Hy. rewrite fill_keys, elem_of_first_occurrences.
  intros (x & Heq & Hx)%list_elem_of_fmap. by apply (Hdis x y).
Qed.

Lemma batch_app_disjoint_witness :
  ∃ d1 d2,
    extract_pdfs_with_metadata scan_world (PyList ["in/a.pdf"]) = Return d1
    ∧ extract_pdfs_with_metadata scan_world (PyList ["scans/half.pdf"; "gone/b.pdf"])
        = Return d2
    ∧ extract_pdfs_with_metadata scan_world
        (PyList (["in/a.pdf"] ++ ["scans/half.pdf"; "gone/b.pdf"])) = Return (d1 ++ d2).
Proof.
  apply (batch_app_disjoint scan_world ["in/a.pdf"] ["scans/half.pdf"; "gone/b.pdf"]).
  intros x y Hx%list_elem_of_singleton Hy. subst x.
  apply elem_of_cons in Hy as [-> | Hy]; [discriminate |].
  apply list_elem_of_singleton in Hy as ->. discriminate.
Defined.

Lemma split_slash_no_slash s : Forall (λ x, has_slash x = false) (split_slash s).
Proof.
  induction s as [|c s IH]; [constructor; [reflexivity | constructor] |].
  cbn [split_slash]. destruct (Ascii.eqb c "/") eqn:Hc.
  - constructor; [reflexivity | exact IH].
  - destruct (split_slash s) as [|x xs];
      [constructor; [cbn [has_slash]; by rewrite Hc | constructor] |].
    apply Forall_cons in IH as [Hx Hxs]. constructor; [| done].
    cbn [has_slash]. by rewrite Hc.
Qed.

Lemma Path_name_no_slash p : has_slash (Path_name p) = false ∧ Path_name p ≠ ".".
Proof.
  unfold Path_name. destruct (last (path_parts p)) as [k|] eqn:Hlast; [| done].
  apply last_Some_elem_of, list_elem_of_filter in Hlast as [[_ Hdot] Hin].
  split; [| done]. cbn [default].
  pose proof (split_slash_no_slash p) as Hall.
  by apply (proj1 (Forall_forall _ _) Hall).
Qed.

(** X15: a key of a mapping that [extract_pdfs_with_metadata] returns
    contains no slash and is not the name of the current directory: the
    directories of the paths are not kept. *)
Theorem result_keys_no_slash w pdf_input d :
  extract_pdfs_with_metadata w pdf_input = Return d →
  ∀ k, k ∈ dict_keys d → has_slash k = false ∧ k ≠ ".".
Proof.
  destruct pdf_input as [p|l|l|n|]; try discriminate.
  - rewrite extract_pdfs_with_metadata_str.
    destruct (extract_text_from_pdf w p) as [t|e0]; [| discriminate].
    rewrite bind_Return. intros [= <-] k ->%list_elem_of_singleton.
    apply Path_name_no_slash.
  - rewrite extract_pdfs_with_metadata_list. intros [= <-] k.
    rewrite fill_keys, elem_of_first_occurrences.
    intros (x & -> & _)%list_elem_of_fmap. apply Path_name_no_slash.
Qed.

Lemma result_keys_no_slash_witness :
  has_slash "a.pdf" = false ∧ "a.pdf" ≠ ".".
Proof.
  refine (result_keys_no_slash sample_world (PyStr "docs/a.pdf")
    [("a.pdf", {| text := "Hello" +:+ newline +:+ newline +:+ "World" +:+ newline;
                  meta := Ok "a.pdf" 3 12 (Some "Doc A") None |})]
    eq_refl "a.pdf" _).
  left.
Defined.

(** ** The log *)


Lemma bind_Log_Return {A B} (f : A → Logged B) evs a :
  (Log evs (Return a) ≫= f) = Log (evs ++ events (f a)) (outcome (f a)).
Proof. reflexivity. Qed.

Lemma bind_Log_Raise {A B} (f : A → Logged B) evs e :
  (Log evs (Raise e) ≫= f) = Log evs (Raise e).
Proof. reflexivity. Qed.

Lemma written_app lv evs1 evs2 :
  written lv (evs1 ++ evs2) = written lv evs1 ++ written lv evs2.
Proof. apply filter_app. Qed.

Lemma count_level_app lv evs1 evs2 :
  count_level lv (evs1 ++ evs2) = (count_level lv evs1 + count_level lv evs2)%nat.
Proof. unfold count_level. by rewrite filter_app, length_app. Qed.

Lemma written_page_events n ts : written INFO (page_events n ts) = [].
Proof.
  revert n. induction ts as [|t ts IH]; intros n; [done |].
  cbn [page_events]. unfold written. rewrite filter_cons_False by (cbn; lia).
  apply IH.
Qed.

Lemma count_level_page_events lv n ts :
  lv ≠ DEBUG → count_level lv (page_events n ts) = 0%nat.
Proof.
  intros Hlv. revert n. induction ts as [|t ts IH]; intros n; [done |].
  cbn [page_events]. unfold count_level.
  rewrite filter_cons_False by (cbn; congruence). apply IH.
Qed.

(** The page loop with its events: every page, or those before the first
    that raises. *)
Lemma page_loop_log_cases ps n acc :
  (∃ ts, page_texts ps ts
     ∧ page_loop_log ps n acc = Log (page_events n ts) (Return (acc +:+ page_lines ts)))
  ∨ (∃ ps1 page ps2 ts e,
       ps = ps1 ++ page :: ps2 ∧ page_texts ps1 ts
       ∧ extract_text page = Raise e
       ∧ page_loop_log ps n acc = Log (page_events n ts) (Raise e)).
Proof.
  revert n acc. induction ps as [|page ps IH]; intros n acc.
  - left. exists []. split; [constructor |]. cbn. by rewrite append_empty_r.
  - destruct (extract_text page) as [x|e] eqn:Hx.
    + destruct (IH (S n) (acc +:+ (or_empty x +:+ newline)))
        as [(ts & Hts & Hl) | (ps1 & pg & ps2 & ts & e & -> & Hts & Hpg & Hl)].
      * left. exists (or_empty x :: ts). split.
        { constructor; [by exists x | done]. }
        cbn [page_loop_log]. rewrite Hx. unfold quiet. rewrite bind_Log_Return.
        cbn zeta. unfold log. rewrite bind_Log_Return, Hl. cbn.
        by rewrite !append_assoc.
      * right. exists (page :: ps1), pg, ps2, (or_empty x :: ts), e.
        split; [done |]. split; [constructor; [by exists x | done] |].
        split; [done |]. cbn [page_loop_log]. rewrite Hx. unfold quiet.
        rewrite bind_Log_Return. cbn zeta. unfold log.
        by rewrite bind_Log_Return, Hl.
    + right. exists [], page, ps, [], e. split; [done |].
      split; [constructor |]. split; [done |]. cbn [page_loop_log]. by rewrite Hx.
Qed.

(** The reader with its events. *)
Lemma extract_text_from_pdf_log_cases w pdf_path :
  match extract_text_from_pdf w pdf_path with
  | Return t =>
      ∃ ts, t = page_lines ts
        ∧ extract_text_from_pdf_log w pdf_path =
            Log (Event INFO (Extracting_text_from pdf_path)
                   :: page_events 0 ts
                   ++ [Event INFO (Successfully_extracted (String.length t) pdf_path)])
                (Return t)
  | Raise e =>
      ∃ ts, extract_text_from_pdf_log w pdf_path =
              Log (Event INFO (Extracting_text_from pdf_path)
                     :: page_events 0 ts
                     ++ [Event ERROR (reader_error pdf_path e)])
                  (Raise e)
  end.
Proof.
  rewrite extract_text_from_pdf_body. unfold extract_text_from_pdf_log, reader_error.
  destruct (pypdf_PdfReader w pdf_path) as [reader|e] eqn:Hopen.
  - rewrite bind_Return. destruct (pages reader) as [ps|e] eqn:Hps.
    + rewrite bind_Return.
      destruct (page_loop_cases ps EmptyString)
        as [(ts & Hts & Hl) | (ps1 & pg & ps2 & ts & e & Heq & Hts & Hpg & Hl)];
        rewrite Hl;
        destruct (page_loop_log_cases ps 0 EmptyString)
          as [(ts' & Hts' & Hl') | (qs1 & qg & qs2 & ts' & e' & Heq' & Hts' & Hqg & Hl')].
      * exists ts'. assert (page_lines ts = page_lines ts') as Hsame.
        { pose proof (page_loop_lines ps ts' EmptyString Hts') as H'.
          rewrite Hl in H'. by injection H'. }
        split; [done |]. unfold quiet, log. cbn. rewrite ?Hopen. cbn. rewrite ?Hps. cbn.
        rewrite Hl'. cbn. by rewrite Hsame.
      * exfalso. subst ps.
        apply Forall2_app_inv_l in Hts as (t1 & t2 & _ & Ht2 & _).
        apply Forall2_cons_inv_l in Ht2 as (t & t2' & (x & Hx & _) & _ & _).
        congruence.
      * exfalso. subst ps.
        apply Forall2_app_inv_l in Hts' as (t1 & t2 & _ & Ht2 & _).
        apply Forall2_cons_inv_l in Ht2 as (t & t2' & (x & Hx & _) & _ & _).
        congruence.
      * exists ts'. unfold quiet, log. cbn. rewrite ?Hopen. cbn. rewrite ?Hps. cbn.
        rewrite Hl'. cbn.
        assert (e' = e) as ->.
        { assert (outcome (page_loop_log ps 0 EmptyString) = page_loop ps EmptyString) as Ho.
          { clear. generalize 0%nat EmptyString. induction ps as [|page ps IH]; intros n acc;
              [done |].
            cbn [page_loop_log page_loop]. destruct (extract_text page) as [x|e]; [| done].
            unfold quiet, log. cbn. apply IH. }
          rewrite Hl', Hl in Ho. by injection Ho. }
        by destruct (exn_cls e).
    + exists []. unfold quiet, log. cbn. rewrite ?Hopen. cbn. rewrite ?Hps. cbn.
      by destruct (exn_cls e).
  - exists []. unfold quiet, log. cbn. rewrite ?Hopen. cbn. by destruct (exn_cls e).
Qed.

Lemma get_pdf_metadata_log_eq w pdf_path :
  get_pdf_metadata_log w pdf_path =
    Log [Event DEBUG (Getting_metadata pdf_path); probe_event pdf_path (probe w pdf_path)]
        (Return (probe w pdf_path)).
Proof.
  unfold probe, get_pdf_metadata, get_pdf_metadata_log, quiet, log.
  destruct (stat_st_size w pdf_path) as [n|e]; [| done].
  destruct (pypdf_PdfReader w pdf_path) as [r|e]; [| done].
  cbn. destruct (pages r) as [ps|e]; [| done].
  cbn. destruct (metadata r) as [md|e]; [| done].
  done.
Qed.

Lemma text_loop_log_eq w pdf_paths results failed_files :
  text_loop_log w pdf_paths results failed_files =
    Log (concat (path_events w <$> pdf_paths))
        (text_loop w pdf_paths results failed_files).
Proof.
  revert results failed_files.
  induction pdf_paths as [|p l IH]; intros results failed_files; [done |].
  cbn [text_loop_log text_loop fmap list_fmap concat]. unfold path_events at 1.
  pose proof (extract_text_from_pdf_log_cases w p) as Hlog.
  destruct (extract_text_from_pdf w p) as [t|e].
  - destruct Hlog as (ts & _ & ->). unfold log. cbn. rewrite IH. cbn.
    by rewrite <-!app_assoc.
  - destruct Hlog as (ts & ->). unfold log. cbn. rewrite IH. cbn.
    by rewrite <-!app_assoc.
Qed.

Lemma merge_loop_log_eq w batch pdf_input results :
  merge_loop_log w batch pdf_input results =
    Log (concat ((λ p, [Event DEBUG (Getting_metadata p); probe_event p (probe w p)])
                   <$> pdf_input))
        (merge_loop w batch pdf_input results).
Proof.
  revert results. induction pdf_input as [|p l IH]; intros results; [done |].
  cbn [merge_loop_log merge_loop fmap list_fmap concat].
  rewrite get_pdf_metadata_log_eq, get_pdf_metadata_probe, bind_Log_Return, bind_Return.
  cbn zeta. by rewrite IH.
Qed.

Lemma extract_text_from_multiple_pdfs_log_eq w pdf_paths :
  extract_text_from_multiple_pdfs_log w pdf_paths =
    Log (Event INFO (Starting_batch (length pdf_paths))
           :: concat (path_events w <$> pdf_paths)
           ++ Event INFO (Batch_complete (length (batch_texts w pdf_paths))
                                         (length pdf_paths))
           :: match omap (failure w) pdf_paths with
              | [] => []
              | _ :: _ => [Event WARNING (Failed_files (omap (failure w) pdf_paths))]
              end)
        (Return (batch_texts w pdf_paths)).
Proof.
  unfold extract_text_from_multiple_pdfs_log, log.
  rewrite text_loop_log_eq, text_loop_fill. cbn.
  fold (batch_texts w pdf_paths).
  destruct (omap (failure w) pdf_paths); cbn; by rewrite ?app_nil_r.
Qed.




(** X18: at the level INFO, which [setup_logger] sets, a call of the reader
    writes two lines whatever the number of pages: the starting line, and
    the line of the success or of the error.  It logs an error exactly when
    it raises. *)
Theorem extract_text_from_pdf_log_two_lines w pdf_path :
  length (written INFO (events (extract_text_from_pdf_log w pdf_path))) = 2%nat
  ∧ count_level ERROR (events (extract_text_from_pdf_log w pdf_path))
      = (if decide (returns (extract_text_from_pdf w pdf_path)) then 0 else 1)%nat.
Proof.
  pose proof (extract_text_from_pdf_log_cases w pdf_path) as Hlog.
  destruct (extract_text_from_pdf w pdf_path) as [t|e].
  - destruct Hlog as (ts & _ & ->). cbn [events].
    rewrite decide_True by (by eexists). split.
    + change (Event INFO (Extracting_text_from pdf_path) :: page_events 0 ts ++ ?l)
        with ([Event INFO (Extracting_text_from pdf_path)] ++ page_events 0 ts ++ l).
      rewrite !written_app, written_page_events. done.
    + change (Event INFO (Extracting_text_from pdf_path) :: page_events 0 ts ++ ?l)
        with ([Event INFO (Extracting_text_from pdf_path)] ++ page_events 0 ts ++ l).
      rewrite !count_level_app, count_level_page_events by done. done.
  - destruct Hlog as (ts & ->). cbn [events].
    rewrite decide_False by (intros [? ?]; done). split.
    + change (Event INFO (Extracting_text_from pdf_path) :: page_events 0 ts ++ ?l)
        with ([Event INFO (Extracting_text_from pdf_path)] ++ page_events 0 ts ++ l).
      rewrite !written_app, written_page_events. done.
    + change (Event INFO (Extracting_text_from pdf_path) :: page_events 0 ts ++ ?l)
        with ([Event INFO (Extracting_text_from pdf_path)] ++ page_events 0 ts ++ l).
      rewrite !count_level_app, count_level_page_events by done. done.
Qed.

Lemma count_level_path_events w pdf_path :
  count_level ERROR (path_events w pdf_path)
    = (if decide (returns (extract_text_from_pdf w pdf_path)) then 0 else 2)%nat
  ∧ count_level WARNING (path_events w pdf_path) = 0%nat.
Proof.
  unfold path_events.
  pose proof (extract_text_from_pdf_log_cases w pdf_path) as Hlog.
  destruct (extract_text_from_pdf w pdf_path) as [t|e].
  - destruct Hlog as (ts & _ & ->). cbn [events].
    rewrite decide_True by (by eexists).
    change (Event INFO (Extracting_text_from pdf_path) :: page_events 0 ts ++ ?l)
      with ([Event INFO (Extracting_text_from pdf_path)] ++ page_events 0 ts ++ l).
    by rewrite !count_level_app, !count_level_page_events by done.
  - destruct Hlog as (ts & ->). cbn [events].
    rewrite decide_False by (intros [? ?]; done).
    change (Event INFO (Extracting_text_from pdf_path) :: page_events 0 ts ++ ?l)
      with ([Event INFO (Extracting_text_from pdf_path)] ++ page_events 0 ts ++ l).
    by rewrite !count_level_app, !count_level_page_events by done.
Qed.

Lemma count_level_text_loop_events w (pdf_paths : list string) :
  count_level ERROR (concat (path_events w <$> pdf_paths))
    = (2 * length (filter (λ p, ¬ returns (extract_text_from_pdf w p)) pdf_paths))%nat
  ∧ count_level WARNING (concat (path_events w <$> pdf_paths)) = 0%nat.
Proof.
  induction pdf_paths as [|p l [IHe IHw]]; [done |].
  cbn [fmap list_fmap concat]. rewrite !count_level_app, IHe, IHw.
  destruct (count_level_path_events w p) as [-> ->]. rewrite filter_cons.
  destruct (decide (returns (extract_text_from_pdf w p))).
  - rewrite decide_False by tauto. done.
  - rewrite decide_True by done. cbn [length]. lia.
Qed.

Lemma count_level_merge_loop_events w (pdf_input : list string) :
  count_level ERROR
      (concat ((λ p, [Event DEBUG (Getting_metadata p); probe_event p (probe w p)])
                 <$> pdf_input))
    = length (filter (λ p, is_degraded (probe w p)) pdf_input)
  ∧ count_level WARNING
      (concat ((λ p, [Event DEBUG (Getting_metadata p); probe_event p (probe w p)])
                 <$> pdf_input)) = 0%nat.
Proof.
  induction pdf_input as [|p l [IHe IHw]]; [done |].
  cbn [fmap list_fmap concat]. rewrite !count_level_app, IHe, IHw, filter_cons.
  destruct (probe w p) as [f n sz t a | f err]; cbn [is_degraded probe_event].
  - rewrite decide_False by (intros []). done.
  - rewrite decide_True by done. done.
Qed.

(** X19: what the text loop of a batch logs: the starting line with the
    number of paths, for every path the events of the reader and one line
    of the loop, then the summary with the number of keys of the text
    mapping over the number of paths, and last, only when a path could not
    be read, one warning with all of [failed_files]. *)
Theorem extract_text_from_multiple_pdfs_log_events w (pdf_paths : list string) :
  ∃ results failed_files,
    extract_text_from_multiple_pdfs_locals w pdf_paths = Return (results, failed_files)
    ∧ events (extract_text_from_multiple_pdfs_log w pdf_paths) =
        Event INFO (Starting_batch (length pdf_paths))
          :: concat (path_events w <$> pdf_paths)
          ++ Event INFO (Batch_complete (length results) (length pdf_paths))
          :: match failed_files with
             | [] => []
             | _ :: _ => [Event WARNING (Failed_files failed_files)]
             end
    ∧ count_level WARNING (events (extract_text_from_multiple_pdfs_log w pdf_paths))
        = (if decide (Forall (λ p, returns (extract_text_from_pdf w p)) pdf_paths)
           then 0 else 1)%nat.
Proof.
  eexists _, _. split; [apply extract_text_from_multiple_pdfs_locals_eq |].
  rewrite extract_text_from_multiple_pdfs_log_eq. cbn [events]. split; [done |].
  change (Event INFO (Starting_batch (length pdf_paths)) :: ?a ++ ?b :: ?c)
    with ([Event INFO (Starting_batch (length pdf_paths))] ++ a ++ [b] ++ c).
  rewrite !count_level_app. destruct (count_level_text_loop_events w pdf_paths) as [_ ->].
  destruct (omap (failure w) pdf_paths) as [|[k msg] rest] eqn:Hf.
  - rewrite decide_True; [done |]. apply Forall_forall. intros p Hp.
    destruct (extract_text_from_pdf w p) as [t|e] eqn:He; [by eexists |].
    pose proof (failure_recorded w pdf_paths p e Hp He) as Hin.
    rewrite Hf in Hin. by apply elem_of_nil in Hin.
  - rewrite decide_False; [done |]. intros Hall.
    assert ((k, msg) ∈ omap (failure w) pdf_paths) as Hin by (rewrite Hf; left).
    apply list_elem_of_omap in Hin as (p & Hp & Hfp). unfold failure in Hfp.
    destruct (proj1 (Forall_forall _ _) Hall p Hp) as [t Ht]. by rewrite Ht in Hfp.
Qed.

(** X20: the error events of a batch: two for every path whose text cannot
    be read, one of the reader and one of the loop, and one for every path
    whose probe is degraded; and one warning, or none when every text is
    read. *)
Theorem extract_pdfs_with_metadata_log_errors w (pdf_input : list string) :
  count_level ERROR (events (extract_pdfs_with_metadata_log w (PyList pdf_input)))
    = (2 * length (filter (λ p, ¬ returns (extract_text_from_pdf w p)) pdf_input)
       + length (filter (λ p, is_degraded (probe w p)) pdf_input))%nat
  ∧ (count_level WARNING (events (extract_pdfs_with_metadata_log w (PyList pdf_input)))
       ≤ 1)%nat.
Proof.
  cbn [extract_pdfs_with_metadata_log].
  rewrite extract_text_from_multiple_pdfs_log_eq, bind_Log_Return, merge_loop_log_eq.
  cbn [events].
  change (Event INFO (Starting_batch (length pdf_input)) :: ?a ++ ?b :: ?c)
    with ([Event INFO (Starting_batch (length pdf_input))] ++ a ++ [b] ++ c).
  rewrite !count_level_app.
  destruct (count_level_text_loop_events w pdf_input) as [-> ->].
  destruct (count_level_merge_loop_events w pdf_input) as [-> ->].
  destruct (omap (failure w) pdf_input); cbn; split;
    repeat case_decide; try discriminate; cbn; lia.
Qed.

(** X21: at the level INFO the probe writes nothing when it succeeds, and
    one error line, with the path and the message of the exception, when
    something fails in it. *)
Theorem get_pdf_metadata_log_written w pdf_path :
  (∀ st_size ps md, probe_succeeds w pdf_path st_size ps md →
     written INFO (events (get_pdf_metadata_log w pdf_path)) = [])
  ∧ (∀ e, probe_failure w pdf_path e →
       written INFO (events (get_pdf_metadata_log w pdf_path))
         = [Event ERROR (Failed_to_get_metadata pdf_path (exn_str e))]).
Proof.
  rewrite get_pdf_metadata_log_eq. cbn [events]. unfold probe. split.
  - intros n ps md Hok. by rewrite (get_pdf_metadata_success _ _ _ _ _ Hok).
  - intros e He. by rewrite (get_pdf_metadata_failure _ _ _ He).
Qed.

Lemma get_pdf_metadata_log_written_witness :
  written INFO (events (get_pdf_metadata_log scan_world "scans/img.pdf")) = []
  ∧ written INFO (events (get_pdf_metadata_log scan_world "gone/b.pdf"))
    = [Event ERROR (Failed_to_get_metadata "gone/b.pdf"
                      (exn_str (no_such_file "gone/b.pdf")))].
Proof.
  split.
  - apply (proj1 (get_pdf_metadata_log_written scan_world "scans/img.pdf")
             5242%N [blank_page; blank_page] None).
    split; [reflexivity |]. exists doc_scan. by repeat split.
  - apply (proj2 (get_pdf_metadata_log_written scan_world "gone/b.pdf")
             (no_such_file "gone/b.pdf")).
    by apply stat_fails.
Defined.

(** ** [setup_logger] *)

Lemma setup_logger_level st : lg_level (rag_backend (setup_logger st)) = Some INFO.
Proof.
  destruct st as [rh [lv hs pr]]. unfold setup_logger, hasHandlers. cbn.
  by destruct (negb _).
Qed.

Lemma setup_logger_hasHandlers st : hasHandlers (setup_logger st) = true.
Proof.
  destruct st as [rh [lv hs pr]]. unfold setup_logger, hasHandlers. cbn.
  destruct hs as [|h hs], pr, rh as [|r rh]; cbn; try done.
Qed.

Lemma setup_logger_configured st :
  hasHandlers st = true →
  setup_logger st =
    {| root_handlers := root_handlers st;
       rag_backend := {| lg_level := Some INFO;
                         lg_handlers := lg_handlers (rag_backend st);
                         lg_propagate := lg_propagate (rag_backend st) |} |}.
Proof.
  destruct st as [rh [lv hs pr]]. unfold setup_logger, hasHandlers. cbn.
  by intros ->.
Qed.

Lemma setup_logger_twice st : setup_logger (setup_logger st) = setup_logger st.
Proof.
  rewrite (setup_logger_configured (setup_logger st)) by apply setup_logger_hasHandlers.
  pose proof (setup_logger_level st) as Hlv.
  destruct (setup_logger st) as [rh [lv hs pr]]. cbn in *. by rewrite Hlv.
Qed.

(** X22: calling [setup_logger] again changes nothing: the level stays
    INFO and no second handler is added, so that no line is written
    twice. *)
Theorem setup_logger_idempotent st :
  setup_logger (setup_logger st) = setup_logger st
  ∧ lg_level (rag_backend (setup_logger st)) = Some INFO
  ∧ (length (lg_handlers (rag_backend (setup_logger st)))
       ≤ Nat.max 1 (length (lg_handlers (rag_backend st))))%nat.
Proof.
  split; [apply setup_logger_twice | split; [apply setup_logger_level |]].
  unfold setup_logger. cbn zeta. unfold hasHandlers. cbn.
  destruct (lg_handlers (rag_backend st)) as [|h hs]; cbn.
  - destruct (lg_propagate _ && _); cbn; lia.
  - lia.
Qed.

(** X23: where [setup_logger] attaches its handler.  In a process where
    neither the logger nor the root logger has a handler, any number of
    calls leaves the logger with exactly the rotating handler on
    logs/rag_backend.log (10,000,000 bytes, 5 backups, the format of the
    module).  When the root logger has a handler already and the logger
    propagates, nothing is attached: the file gets no line. *)
Theorem setup_logger_handlers st n :
  (0 < n)%nat →
  lg_handlers (rag_backend st) = [] →
  (is_nil (root_handlers st) || negb (lg_propagate (rag_backend st)) = true →
     lg_handlers (rag_backend (Nat.iter n setup_logger st)) = [file_handler])
  ∧ (is_nil (root_handlers st) = false → lg_propagate (rag_backend st) = true →
     lg_handlers (rag_backend (Nat.iter n setup_logger st)) = []).
Proof.
  intros Hn Hnil.
  assert (∀ k, Nat.iter (S k) setup_logger st = setup_logger st) as Hiter.
  { induction k as [|k IH]; [done |].
    rewrite Nat.iter_succ, IH. apply setup_logger_twice. }
  destruct n as [|k]; [lia |]. rewrite Hiter.
  unfold setup_logger, hasHandlers. cbn. rewrite Hnil. cbn. split.
  - intros Hfree. destruct (root_handlers st), (lg_propagate (rag_backend st)); done.
  - intros Hroot Hprop. rewrite Hprop. by destruct (root_handlers st).
Qed.

Lemma setup_logger_handlers_witness :
  lg_handlers (rag_backend (Nat.iter 3 setup_logger fresh_logging)) = [file_handler]
  ∧ lg_handlers
      (rag_backend (Nat.iter 2 setup_logger
         {| root_handlers := [OtherHandler "console"]; rag_backend := new_logger |}))
    = [].
Proof.
  split.
  - apply (proj1 (setup_logger_handlers fresh_logging 3 ltac:(lia) eq_refl)).
    reflexivity.
  - apply (proj2 (setup_logger_handlers
             {| root_handlers := [OtherHandler "console"]; rag_backend := new_logger |}
             2 ltac:(lia) eq_refl)); reflexivity.
Defined.
